(** * Freeze: a shallow embedding of [freezer.py]

    The module defines one operation, [Freeze], that captures the constant
    bindings visible at the place where a function, lambda or class is
    defined and inlines them into the syntax tree of that definition.

    The embedding follows the source top to bottom:
    - Python values and the [isinstance] test against [_constantTypes];
    - exceptions and the outcome of a fallible step;
    - dictionaries ([dict.copy], [dict.update], [del d[k]], [d[k]]);
    - the syntax tree and [ast.NodeTransformer] with the two overridden
      visitor methods of [ConstantReplacer];
    - the body of [Freeze], block by block.

    What the source takes from the interpreter ([inspect.getsource],
    [inspect.cleandoc], [ast.parse], the call stack, [exec]) is a field of
    the record [Host] or an explicit argument. *)

From Stdlib Require Import ZArith.
From stdpp Require Import base option list strings gmap fin_maps.

Open Scope string_scope.
Set Warnings "-register-all".

(** ** Python values *)

(** The built-in classes the source can tell apart. *)
Inductive builtin :=
| TInt | TFloat | TComplex | TStr | TTuple | TBytes | TBool | TNoneType
| TList | TDict | TSet | TFunction | TType | TModule | TObject.

(** A class is built in or user defined, with the classes it derives from. *)
Inductive pytype :=
| Builtin (b : builtin)
| UserClass (name : string) (bases : list pytype).

(** Values held by a namespace.  The eight literal kinds carry their
    content; every other object (a list, a dict, a function, a class, an
    instance of a user-defined class) is a reference with its runtime class
    and its address.  Floats are kept as their IEEE-754 bit pattern. *)
Inductive value :=
| VInt (n : Z)
| VFloat (bits : Z)
| VComplex (re_bits im_bits : Z)
| VStr (s : string)
| VTuple (items : list value)
| VBytes (bs : list Z)
| VBool (b : bool)
| VNone
| VObject (cls : pytype) (addr : N).

Definition type_of (v : value) : pytype :=
  match v with
  | VInt _ => Builtin TInt
  | VFloat _ => Builtin TFloat
  | VComplex _ _ => Builtin TComplex
  | VStr _ => Builtin TStr
  | VTuple _ => Builtin TTuple
  | VBytes _ => Builtin TBytes
  | VBool _ => Builtin TBool
  | VNone => Builtin TNoneType
  | VObject cls _ => cls
  end.

(** [t.__name__] *)
Definition builtin_name (b : builtin) : string :=
  match b with
  | TInt => "int"
  | TFloat => "float"
  | TComplex => "complex"
  | TStr => "str"
  | TTuple => "tuple"
  | TBytes => "bytes"
  | TBool => "bool"
  | TNoneType => "NoneType"
  | TList => "list"
  | TDict => "dict"
  | TSet => "set"
  | TFunction => "function"
  | TType => "type"
  | TModule => "module"
  | TObject => "object"
  end.

Definition type_name (t : pytype) : string :=
  match t with
  | Builtin b => builtin_name b
  | UserClass name _ => name
  end.

Definition builtin_eqb (a b : builtin) : bool :=
  match a, b with
  | TInt, TInt | TFloat, TFloat | TComplex, TComplex | TStr, TStr
  | TTuple, TTuple | TBytes, TBytes | TBool, TBool | TNoneType, TNoneType
  | TList, TList | TDict, TDict | TSet, TSet | TFunction, TFunction
  | TType, TType | TModule, TModule | TObject, TObject => true
  | _, _ => false
  end.

(** [issubclass] between built-in classes: every class derives from
    [object], and [bool] derives from [int]. *)
Definition builtin_subclass (a b : builtin) : bool :=
  builtin_eqb a b
  || builtin_eqb b TObject
  || (builtin_eqb a TBool && builtin_eqb b TInt).

(** [issubclass(t, b)] for a built-in class [b]: [b] occurs in the method
    resolution order of [t]. *)
Fixpoint issubclass (t : pytype) (b : builtin) : bool :=
  match t with
  | Builtin a => builtin_subclass a b
  | UserClass _ bases =>
      builtin_eqb b TObject || existsb (fun base => issubclass base b) bases
  end.

(** [isinstance(v, types)] with a tuple of classes. *)
Definition isinstance (v : value) (types : list builtin) : bool :=
  existsb (issubclass (type_of v)) types.

(** [_constantTypes = (int, float, complex, str, tuple, bytes, bool,
    type(None))] *)
Definition _constantTypes : list builtin :=
  [TInt; TFloat; TComplex; TStr; TTuple; TBytes; TBool; TNoneType].

(** A strict subclass of a built-in class: a user-defined class that
    derives from it. *)
Definition strict_subclass (t : pytype) (b : builtin) : bool :=
  match t with
  | Builtin a => negb (builtin_eqb a b) && builtin_subclass a b
  | UserClass _ _ => issubclass t b
  end.

(** The address of the function object [Freeze] itself; [v is Freeze]
    compares identities. *)
Definition Freeze_addr : N := 0%N.
Definition Freeze_value : value := VObject (Builtin TFunction) Freeze_addr.

Definition is_Freeze (v : value) : bool :=
  match v with
  | VObject _ a => N.eqb a Freeze_addr
  | _ => false
  end.

(** ** Exceptions *)

Inductive exn_class :=
| FreezeError
| AttributeError | KeyError | IndexError | TypeError | ValueError
| NameError | UnboundLocalError
| OSError | SyntaxError | IndentationError | TabError
| KeyboardInterrupt
| OtherException (name : string).

Record exn := Exn { exn_type : exn_class; exn_arg : string }.

(** [except Exception] catches everything but the exceptions that derive
    from [BaseException] only. *)
Definition is_Exception (e : exn) : bool :=
  match exn_type e with
  | KeyboardInterrupt => false
  | _ => true
  end.

(** [except IndentationError]: the class and its subclass [TabError]. *)
Definition is_IndentationError (e : exn) : bool :=
  match exn_type e with
  | IndentationError | TabError => true
  | _ => false
  end.

(** [except AttributeError] *)
Definition is_AttributeError (e : exn) : bool :=
  match exn_type e with
  | AttributeError => true
  | _ => false
  end.

Definition is_FreezeError (e : exn) : bool :=
  match exn_type e with
  | FreezeError => true
  | _ => false
  end.

(** The name [type(e)] prints. *)
Definition class_name (c : exn_class) : string :=
  match c with
  | FreezeError => "FreezeError"
  | AttributeError => "AttributeError"
  | KeyError => "KeyError"
  | IndexError => "IndexError"
  | TypeError => "TypeError"
  | ValueError => "ValueError"
  | NameError => "NameError"
  | UnboundLocalError => "UnboundLocalError"
  | OSError => "OSError"
  | SyntaxError => "SyntaxError"
  | IndentationError => "IndentationError"
  | TabError => "TabError"
  | KeyboardInterrupt => "KeyboardInterrupt"
  | OtherException name => name
  end.

(** A step either returns or raises. *)
Inductive outcome (A : Type) :=
| Ok (a : A)
| Raise (e : exn).
Arguments Ok {A} a.
Arguments Raise {A} e.

Global Instance outcome_bind : MBind outcome := λ A B k m,
  match m with
  | Ok a => k a
  | Raise e => Raise e
  end.

Definition raise {A} (c : exn_class) (arg : string) : outcome A :=
  Raise (Exn c arg).

(** Reading a local variable that may not be bound yet. *)
Definition read_local {A} (name : string) (slot : option A) : outcome A :=
  match slot with
  | Some a => Ok a
  | None => raise UnboundLocalError name
  end.

(** ** Dictionaries *)

(** A namespace or the captured scope: a [dict] keyed by identifier. *)
Abbreviation scope := (gmap string value).

(** [d.update(other)]: the bindings of [other] replace those of [d]. *)
Definition dict_update (d other : scope) : scope := other ∪ d.

(** [d[k]] *)
Definition dict_getitem (d : scope) (k : string) : outcome value :=
  match d !! k with
  | Some v => Ok v
  | None => raise KeyError k
  end.

(** [del d[k]] *)
Definition dict_delitem (d : scope) (k : string) : outcome scope :=
  match d !! k with
  | Some _ => Ok (delete k d)
  | None => raise KeyError k
  end.

(** ** Scope capture (lines 82-87) *)

Record frame := Frame { f_globals : scope; f_locals : scope }.

Definition capture_scope (enforce_globals : bool) (fr : frame) : scope :=
  if enforce_globals
  then dict_update (f_locals fr) (f_globals fr)
  else dict_update (f_globals fr) (f_locals fr).

(** ** Constant filtering (lines 137-141) *)

(** One turn of the loop, for the item [(key, value)] of the copy. *)
Definition filter_step (ignore : list string) (item : string * value)
    (sc : scope) : outcome scope :=
  let '(key, value) := item in
  if negb (isinstance value _constantTypes) then dict_delitem sc key
  else if bool_decide (key ∈ ignore) then dict_delitem sc key
  else Ok sc.

(** The loop over [items], the items of [scope.copy()] in the order the
    dictionary yields them. *)
Fixpoint filter_loop (ignore : list string) (items : list (string * value))
    (sc : scope) : outcome scope :=
  match items with
  | [] => Ok sc
  | item :: rest =>
      sc' ← filter_step ignore item sc;
      filter_loop ignore rest sc'
  end.

Definition filter_scope (ignore : list string) (sc : scope) : outcome scope :=
  filter_loop ignore (map_to_list sc) sc.

(** The entries the loop is meant to keep. *)
Definition freezable (ignore : list string) (item : string * value) : Prop :=
  isinstance item.2 _constantTypes = true ∧ item.1 ∉ ignore.

Global Instance freezable_dec ignore item : Decision (freezable ignore item).
Proof. unfold freezable. apply _. Defined.

(** ** Syntax trees *)

(** [ast.Load], [ast.Store], [ast.Del] *)
Inductive expr_context := Load | Store | Del.

(** What a field holds when it is not a node: an identifier or a string, an
    integer, [None], or the value of a literal. *)
Inductive atom :=
| AStr (s : string)
| AInt (n : Z)
| ANone
| AValue (v : value).

(** An item of a list held by a field: a node, or an atom (the names of a
    [nonlocal] statement, the [None] of a missing keyword default). *)
Inductive item (N : Type) :=
| INode (n : N)
| IAtom (a : atom).
Arguments INode {N} n.
Arguments IAtom {N} a.

(** A node of the tree.  [ConstantReplacer] overrides the visitor of
    [ast.Name] and [ast.Global] and builds [ast.Constant] nodes, so these
    three classes have a constructor each; a node of any other class is
    [Generic], with its class name and its fields in the order of its
    [_fields] (the order [ast.iter_fields] yields).  A field holds a node,
    a list of items, or an atom. *)
Inductive node :=
| Name (id : string) (ctx : expr_context)
| Constant (value : value) (kind : atom)
| Global (names : list string)
| Generic (cls : string) (fields : list (string * field))
with field :=
| FNode (n : node)
| FList (items : list (item node))
| FAtom (a : atom).

Definition context_node (ctx : expr_context) : node :=
  match ctx with
  | Load => Generic "Load" []
  | Store => Generic "Store" []
  | Del => Generic "Del" []
  end.

(** Nodes of the classes the examples use, fields in the order of the
    abstract grammar (Python 3.8 to 3.11). *)
Definition FNodes (ns : list node) : field := FList (INode <$> ns).

Definition arg (name : string) : node :=
  Generic "arg" [("arg", FAtom (AStr name)); ("annotation", FAtom ANone);
                 ("type_comment", FAtom ANone)].
Definition arguments (args : list node) : node :=
  Generic "arguments"
    [("posonlyargs", FList []); ("args", FNodes args);
     ("vararg", FAtom ANone); ("kwonlyargs", FList []);
     ("kw_defaults", FList []); ("kwarg", FAtom ANone);
     ("defaults", FList [])].
Definition FunctionDef (name : string) (args : node) (body : list node)
    (decorator_list : list node) : node :=
  Generic "FunctionDef"
    [("name", FAtom (AStr name)); ("args", FNode args);
     ("body", FNodes body); ("decorator_list", FNodes decorator_list);
     ("returns", FAtom ANone); ("type_comment", FAtom ANone)].
Definition ClassDef (name : string) (bases : list node) (body : list node)
    (decorator_list : list node) : node :=
  Generic "ClassDef"
    [("name", FAtom (AStr name)); ("bases", FNodes bases);
     ("keywords", FList []); ("body", FNodes body);
     ("decorator_list", FNodes decorator_list)].
Definition Return (value : node) : node :=
  Generic "Return" [("value", FNode value)].
Definition Assign (targets : list node) (value : node) : node :=
  Generic "Assign"
    [("targets", FNodes targets); ("value", FNode value);
     ("type_comment", FAtom ANone)].
Definition Expr (value : node) : node :=
  Generic "Expr" [("value", FNode value)].
Definition BinOp (left : node) (op : string) (right : node) : node :=
  Generic "BinOp"
    [("left", FNode left); ("op", FNode (Generic op [])); ("right", FNode right)].
Definition Lambda (args : node) (body : node) : node :=
  Generic "Lambda" [("args", FNode args); ("body", FNode body)].
Definition Call (func : node) (args : list node) : node :=
  Generic "Call"
    [("func", FNode func); ("args", FNodes args); ("keywords", FList [])].
Definition Attribute (value : node) (attr : string) (ctx : expr_context) : node :=
  Generic "Attribute"
    [("value", FNode value); ("attr", FAtom (AStr attr));
     ("ctx", FNode (context_node ctx))].
Definition Tuple (elts : list node) (ctx : expr_context) : node :=
  Generic "Tuple" [("elts", FNodes elts); ("ctx", FNode (context_node ctx))].

(** [getattr(node, name)] *)
Fixpoint assoc {A} (name : string) (fields : list (string * A)) : option A :=
  match fields with
  | [] => None
  | (k, f) :: rest => if String.eqb k name then Some f else assoc name rest
  end.

Definition node_class (n : node) : string :=
  match n with
  | Name _ _ => "Name"
  | Constant _ _ => "Constant"
  | Global _ => "Global"
  | Generic cls _ => cls
  end.

Definition node_fields (n : node) : list (string * field) :=
  match n with
  | Name id ctx => [("id", FAtom (AStr id)); ("ctx", FNode (context_node ctx))]
  | Constant v kind => [("value", FAtom (AValue v)); ("kind", FAtom kind)]
  | Global names => [("names", FList ((λ s, IAtom (AStr s)) <$> names))]
  | Generic _ fields => fields
  end.

Definition no_attribute {A} (cls name : string) : outcome A :=
  raise AttributeError
    ("'" ++ cls ++ "' object has no attribute '" ++ name ++ "'").

Definition getattr (n : node) (name : string) : outcome field :=
  match assoc name (node_fields n) with
  | Some f => Ok f
  | None => no_attribute (node_class n) name
  end.

(** [setattr(node, name, f)] on a node whose class is [Generic]. *)
Fixpoint set_assoc {A} (name : string) (f : A) (fields : list (string * A))
    : list (string * A) :=
  match fields with
  | [] => [(name, f)]
  | (k, g) :: rest =>
      if String.eqb k name then (k, f) :: rest
      else (k, g) :: set_assoc name f rest
  end.

(** ** ConstantReplacer (lines 28-45) *)

(** [visit_Name], with [freeze_data] threaded: [self.freeze_keys] is the
    live key view of [self.freeze_data]. *)
Definition visit_Name (id : string) (ctx : expr_context) (freeze_data : scope)
    : node * scope :=
  match freeze_data !! id with
  | Some v =>
      match ctx with
      | Load => (Constant v ANone, freeze_data)
      | _ => (Name id ctx, delete id freeze_data)
      end
  | None => (Name id ctx, freeze_data)
  end.

(** [visit_Global] returns [None]: the node is removed. *)
Definition visit_Global (names : list string) (freeze_data : scope)
    : option node * scope :=
  (None, freeze_data).

(** [NodeTransformer.visit]: dispatch on the class of the node, and
    [generic_visit] for a class without a visitor of its own.
    [generic_visit] walks the fields in order; in a list it visits the items
    that are nodes, drops those visited to [None] and keeps the other items;
    a field that is a node is visited and deleted when visited to [None]. *)
Fixpoint visit (n : node) (d : scope) {struct n} : option node * scope :=
  match n with
  | Name id ctx => let '(n', d') := visit_Name id ctx d in (Some n', d')
  | Global names => visit_Global names d
  | Constant _ _ => (Some n, d)
  | Generic cls fields =>
      let '(fields', d') :=
        (fix visit_fields (fs : list (string * field)) (d : scope) :=
           match fs with
           | [] => ([], d)
           | (name, f) :: rest =>
               let '(f', d1) := visit_field f d in
               let '(rest', d2) := visit_fields rest d1 in
               (match f' with
                | Some f' => (name, f') :: rest'
                | None => rest'
                end, d2)
           end) fields d in
      (Some (Generic cls fields'), d')
  end
with visit_field (f : field) (d : scope) {struct f} : option field * scope :=
  match f with
  | FNode n => let '(n', d') := visit n d in (FNode <$> n', d')
  | FList items =>
      let '(items', d') :=
        (fix visit_items (l : list (item node)) (d : scope) :=
           match l with
           | [] => ([], d)
           | INode n :: rest =>
               let '(n', d1) := visit n d in
               let '(rest', d2) := visit_items rest d1 in
               (match n' with
                | Some n' => INode n' :: rest'
                | None => rest'
                end, d2)
           | IAtom a :: rest =>
               let '(rest', d2) := visit_items rest d in
               (IAtom a :: rest', d2)
           end) items d in
      (Some (FList items'), d')
  | FAtom _ => (Some f, d)
  end.

(** The two loops of [generic_visit], named. *)
Fixpoint visit_items (l : list (item node)) (d : scope)
    : list (item node) * scope :=
  match l with
  | [] => ([], d)
  | INode n :: rest =>
      let '(n', d1) := visit n d in
      let '(rest', d2) := visit_items rest d1 in
      (match n' with
       | Some n' => INode n' :: rest'
       | None => rest'
       end, d2)
  | IAtom a :: rest =>
      let '(rest', d2) := visit_items rest d in
      (IAtom a :: rest', d2)
  end.

Fixpoint visit_fields (fs : list (string * field)) (d : scope)
    : list (string * field) * scope :=
  match fs with
  | [] => ([], d)
  | (name, f) :: rest =>
      let '(f', d1) := visit_field f d in
      let '(rest', d2) := visit_fields rest d1 in
      (match f' with
       | Some f' => (name, f') :: rest'
       | None => rest'
       end, d2)
  end.

(** The number of places where [x] is read: the [Name] nodes with
    identifier [x] in [Load] context. *)
Fixpoint reads (x : string) (n : node) : nat :=
  match n with
  | Name id Load => if String.eqb id x then 1 else 0
  | Name _ _ | Constant _ _ | Global _ => 0
  | Generic _ fields =>
      (fix go (fs : list (string * field)) : nat :=
         match fs with
         | [] => 0
         | (_, f) :: rest => reads_field x f + go rest
         end) fields
  end
with reads_field (x : string) (f : field) : nat :=
  match f with
  | FNode n => reads x n
  | FList items =>
      (fix go (l : list (item node)) : nat :=
         match l with
         | [] => 0
         | INode n :: rest => reads x n + go rest
         | IAtom _ :: rest => go rest
         end) items
  | FAtom _ => 0
  end.

Definition reads_item (x : string) (i : item node) : nat :=
  match i with INode n => reads x n | IAtom _ => 0 end.

Definition reads_items (x : string) (l : list (item node)) : nat :=
  foldr (λ i k, reads_item x i + k) 0 l.

Definition reads_fields (x : string) (fs : list (string * field)) : nat :=
  foldr (λ p k, reads_field x p.2 + k) 0 fs.

(** The number of places where [x] is written: the [Name] nodes with
    identifier [x] in a context other than [Load]. *)
Fixpoint writes (x : string) (n : node) : nat :=
  match n with
  | Name id Load => 0
  | Name id _ => if String.eqb id x then 1 else 0
  | Constant _ _ | Global _ => 0
  | Generic _ fields =>
      (fix go (fs : list (string * field)) : nat :=
         match fs with
         | [] => 0
         | (_, f) :: rest => writes_field x f + go rest
         end) fields
  end
with writes_field (x : string) (f : field) : nat :=
  match f with
  | FNode n => writes x n
  | FList items =>
      (fix go (l : list (item node)) : nat :=
         match l with
         | [] => 0
         | INode n :: rest => writes x n + go rest
         | IAtom _ :: rest => go rest
         end) items
  | FAtom _ => 0
  end.

Definition writes_item (x : string) (i : item node) : nat :=
  match i with INode n => writes x n | IAtom _ => 0 end.

Definition writes_items (x : string) (l : list (item node)) : nat :=
  foldr (λ i k, writes_item x i + k) 0 l.

Definition writes_fields (x : string) (fs : list (string * field)) : nat :=
  foldr (λ p k, writes_field x p.2 + k) 0 fs.

(** ** Objects given to and returned by [Freeze] *)

(** The global namespace a function resolves its free names in
    ([__globals__]): the one of the module [freezer] or the one of another
    module. *)
Inductive namespace :=
| FreezerGlobals
| ModuleGlobals (name : string).

(** A code object, by the definition it was compiled from: [Compiled] at
    the top level of a module, where a definition has no free variable,
    [Nested] inside a function, with the number of its free variables. *)
Inductive code :=
| Compiled (definition : node)
| Nested (definition : node) (freevars : nat).

(** [len(co.co_freevars)] *)
Definition co_freevars (co : code) : nat :=
  match co with
  | Compiled _ => 0
  | Nested _ n => n
  end.

(** A function object; its closure has one cell for each free variable of
    its code. *)
Record function_obj := Function {
  fn_addr : N;
  fn_qualname : string;
  fn_code : code;
  fn_globals : namespace
}.

(** A class object; [cls_code] is its attribute [__code__], which a class
    does not have unless one is set on it. *)
Record class_obj := Class {
  cls_addr : N;
  cls_qualname : string;
  cls_code : option code
}.

(** The objects that the local variables of [Freeze] hold besides the
    target and plain values: a dictionary ([scope], [overwrite_with]), a
    sequence of names ([ignore]), the module tree ([astMod]), a node or an
    item ([astTgt], [newFnc], [deco]) and a list of them ([newDecoList]). *)
Inductive data :=
| DDict (d : scope)
| DStrings (l : list string)
| DModule (body : list node)
| DItem (i : item node)
| DNodes (l : list (item node)).

Inductive pyobj :=
| ObjFunction (f : function_obj)
| ObjClass (c : class_obj)
| ObjOther (v : value)
| ObjData (d : data).

(** [isinstance(fnc, (FunctionType, type))] *)
Definition is_function_or_type (o : pyobj) : bool :=
  match o with
  | ObjFunction _ | ObjClass _ => true
  | ObjOther _ | ObjData _ => false
  end.

(** [type(o).__name__] *)
Definition class_of (o : pyobj) : string :=
  match o with
  | ObjFunction _ => "function"
  | ObjClass _ => "type"
  | ObjOther v => type_name (type_of v)
  | ObjData (DDict _) => "dict"
  | ObjData (DStrings _) | ObjData (DNodes _) => "list"
  | ObjData (DModule _) => "Module"
  | ObjData (DItem (INode n)) => node_class n
  | ObjData (DItem (IAtom (AStr _))) => "str"
  | ObjData (DItem (IAtom (AInt _))) => "int"
  | ObjData (DItem (IAtom ANone)) => "NoneType"
  | ObjData (DItem (IAtom (AValue v))) => type_name (type_of v)
  end.

(** [fnc.__qualname__] *)
Definition qualname (o : pyobj) : string :=
  match o with
  | ObjFunction f => fn_qualname f
  | ObjClass c => cls_qualname c
  | ObjOther _ | ObjData _ => ""
  end.

(** ** The interpreter *)

(** What [Freeze] asks of the interpreter.  [evaluate] runs what a
    definition evaluates when it is executed (the defaults of a [def] or a
    [lambda], the bases and the suite of a [class]); [exec_host] executes a
    statement [exec_stmt] below does not cover; both are given the global
    namespace and the local names the code runs with, and return or raise
    as the interpreter decides.  The values [evaluate] computes are not
    kept: a function object of the model carries its code and its globals,
    not the default values of its parameters.  [code_at] is the attribute [__code__] of
    an object the model knows by its address only, when it has one.
    [last_item d] is the entry a loop over [d.items()] takes last, if [d]
    has one: a dictionary is walked in the order of insertion, which
    [scope] does not record.  [fresh] is the address of the next object
    created. *)
Record Host := {
  getsource : pyobj → outcome string;
  cleandoc : string → string;
  parse : string → outcome (list node);
  compile : list node → outcome unit;
  evaluate : namespace → gmap string pyobj → node → outcome unit;
  exec_host : namespace → gmap string pyobj → node
              → outcome (list (string * pyobj));
  code_at : N → option code;
  last_item : scope → option (string * value);
  fresh : N
}.

(** [o.__code__] *)
Definition get_code (h : Host) (o : pyobj) : outcome code :=
  match o with
  | ObjFunction f => Ok (fn_code f)
  | ObjClass c =>
      match cls_code c with
      | Some co => Ok co
      | None =>
          raise AttributeError
            ("type object '" ++ cls_qualname c ++ "' has no attribute '__code__'")
      end
  | ObjOther (VObject _ addr) =>
      match code_at h addr with
      | Some co => Ok co
      | None => no_attribute (class_of o) "__code__"
      end
  | ObjOther _ | ObjData _ => no_attribute (class_of o) "__code__"
  end.

(** [o.__code__ = co]: the object stays the same, its code changes.  A
    function refuses a code object whose number of free variables is not
    the size of its closure, with a [ValueError]; the text of its message
    is not modelled. *)
Definition set_code (o : pyobj) (co : code) : outcome pyobj :=
  match o with
  | ObjFunction f =>
      if Nat.eqb (co_freevars co) (co_freevars (fn_code f)) then
        Ok (ObjFunction (Function (fn_addr f) (fn_qualname f) co (fn_globals f)))
      else
        raise ValueError "requires a code object with as many free vars"
  | ObjClass c => Ok (ObjClass (Class (cls_addr c) (cls_qualname c) (Some co)))
  | ObjOther _ | ObjData _ => no_attribute (class_of o) "__code__"
  end.

(** Executing one statement of a module with the globals [ns] and the
    local names [locals]: the names it binds.  A [def] without decorators
    binds its name to a new function whose globals are [ns]; a [class]
    without decorators binds its name to a new class; [name = lambda ...]
    binds the name to a new function. *)
Definition exec_stmt (h : Host) (ns : namespace) (locals : gmap string pyobj)
    (stmt : node) : outcome (list (string * pyobj)) :=
  match stmt with
  | Generic cls fields =>
      if String.eqb cls "FunctionDef" then
        match assoc "name" fields, assoc "decorator_list" fields with
        | Some (FAtom (AStr name)), Some (FList []) =>
            _ ← evaluate h ns locals stmt;
            Ok [(name, ObjFunction (Function (fresh h) name (Compiled stmt) ns))]
        | _, _ => exec_host h ns locals stmt
        end
      else if String.eqb cls "ClassDef" then
        match assoc "name" fields, assoc "decorator_list" fields with
        | Some (FAtom (AStr name)), Some (FList []) =>
            _ ← evaluate h ns locals stmt;
            Ok [(name, ObjClass (Class (fresh h) name None))]
        | _, _ => exec_host h ns locals stmt
        end
      else if String.eqb cls "Assign" then
        match assoc "targets" fields, assoc "value" fields with
        | Some (FList [INode (Name target _)]), Some (FNode (Generic vcls _ as v)) =>
            if String.eqb vcls "Lambda" then
              _ ← evaluate h ns locals v;
              Ok [(target,
                   ObjFunction (Function (fresh h) "<lambda>" (Compiled v) ns))]
            else exec_host h ns locals stmt
        | _, _ => exec_host h ns locals stmt
        end
      else exec_host h ns locals stmt
  | _ => exec_host h ns locals stmt
  end.

(** [exec(compile(astMod, '<ast>', 'exec'))] called without a namespace
    argument, as CPython up to 3.12 runs it inside a function: the
    statements run with the globals of the caller of [exec] and with a
    dictionary that holds the caller's bound local variables, [own]; the
    names they bind go into that dictionary, over the caller's. *)
Fixpoint exec_body (h : Host) (ns : namespace) (own : gmap string pyobj)
    (body : list node) (bound : gmap string pyobj)
    : outcome (gmap string pyobj) :=
  match body with
  | [] => Ok bound
  | stmt :: rest =>
      bs ← exec_stmt h ns (bound ∪ own) stmt;
      exec_body h ns own rest (list_to_map bs ∪ bound)
  end.

Definition exec_module (h : Host) (ns : namespace) (own : gmap string pyobj)
    (astMod : list node) : outcome (gmap string pyobj) :=
  _ ← compile h astMod;
  exec_body h ns own astMod ∅.

(** The local variables of [Freeze]: its parameters and every name its body
    binds. *)
Definition Freeze_varnames : list string :=
  ["fnc"; "enforce_globals"; "overwrite_with"; "ignore"; "depth";
   "src"; "source_code"; "astMod"; "astTgt"; "frame"; "scope"; "error";
   "deco"; "_self"; "newDecoList"; "e"; "isNotAssign"; "key"; "value";
   "newFnc"].

(** [locals()[name]] after [exec], in [Freeze] (CPython up to 3.12, where
    [locals()] gives the one dictionary of the frame): [locals()] writes
    the local variables of the function over the dictionary [exec] filled,
    and removes the names of those that are not bound.  A name of a local
    variable of [Freeze] therefore gives that variable, or a [KeyError]
    when it is unbound; any other name gives what [exec] bound to it. *)
Definition locals_getitem (own bound : gmap string pyobj) (name : string)
    : outcome pyobj :=
  if bool_decide (name ∈ Freeze_varnames) then
    match own !! name with
    | Some o => Ok o
    | None => raise KeyError name
    end
  else
    match bound !! name with
    | Some o => Ok o
    | None => raise KeyError name
    end.

(** ** Source retrieval and scope capture (lines 63-96) *)

(** Lines 67-76: the parse of the cleaned source is tried and thrown away;
    an [IndentationError] of it is swallowed, any other exception is raised
    again once the [finally] suite has run; the [finally] suite parses the
    raw source and takes its first statement. *)
Definition parse_source (h : Host) (src : string) : outcome (list node * node) :=
  let pending :=
    match parse h (cleandoc h src) with
    | Ok _ => None
    | Raise x => if is_IndentationError x then None else Some x
    end in
  astMod ← parse h src;
  astTgt ← match astMod with
            | [] => raise IndexError "list index out of range"
            | stmt :: _ => Ok stmt
            end;
  match pending with
  | Some x => Raise x
  | None => Ok (astMod, astTgt)
  end.

(** Lines 79-80.  [callers] are the frames below the one of [Freeze], the
    caller first; a frame without a caller has [f_back = None]. *)
Definition select_frame (depth : Z) (callers : list frame)
    : outcome (option frame) :=
  if Z.eqb depth 0 then Ok (callers !! 0%nat)
  else match callers with
       | [] => no_attribute "NoneType" "f_back"
       | _ :: outer => Ok (outer !! 0%nat)
       end.

(** The [try] suite, lines 64-87: whether the local [frame] is bound when
    the suite is left, and how it is left. *)
Definition try_suite (h : Host) (fnc : pyobj) (enforce_globals : bool)
    (depth : Z) (callers : list frame)
    : bool * outcome (list node * node * scope) :=
  match getsource h fnc with
  | Raise x => (false, Raise x)
  | Ok src =>
      match parse_source h src with
      | Raise x => (false, Raise x)
      | Ok (astMod, astTgt) =>
          match select_frame depth callers with
          | Raise x => (false, Raise x)
          | Ok fr =>
              (true,
               match fr with
               | None =>
                   no_attribute "NoneType"
                     (if enforce_globals then "f_locals" else "f_globals")
               | Some fr => Ok (astMod, astTgt, capture_scope enforce_globals fr)
               end)
          end
      end
  end.

(** Lines 91-93: the handler binds the exception to [error] and formats
    [type(e)]; [e] is the local of [Freeze] that only the handler of line
    122 binds. *)
Definition except_handler (name : string) (e : option exn) (error : exn) : exn :=
  match e with
  | Some e =>
      Exn FreezeError
        ("while trying to freeze the function `" ++ name
         ++ "`, an error of type '<class '" ++ class_name (exn_type e)
         ++ "'>' occured.")
  | None => Exn UnboundLocalError "e"
  end.

(** Lines 63-96 as a whole.  The handler runs for an [Exception]; the
    [finally] suite [del frame] runs last, and raises when [frame] was never
    bound.  No statement before line 122 binds [e]. *)
Definition capture_block (h : Host) (fnc : pyobj) (enforce_globals : bool)
    (depth : Z) (callers : list frame) : outcome (list node * node * scope) :=
  let '(frame_bound, r) := try_suite h fnc enforce_globals depth callers in
  let handled :=
    match r with
    | Ok x => Ok x
    | Raise error =>
        if is_Exception error
        then Raise (except_handler (qualname fnc) None error)
        else Raise error
    end in
  if frame_bound then handled else raise UnboundLocalError "frame".

(** ** Removing [Freeze] from the decorator list (lines 103-131) *)

(** [f.id]: only a node of class [ast.Name] has the attribute. *)
Definition node_id (f : field) : outcome string :=
  match f with
  | FNode (Name id _) => Ok id
  | FNode n => no_attribute (node_class n) "id"
  | FList _ => no_attribute "list" "id"
  | FAtom _ => no_attribute "NoneType" "id"
  end.

Definition item_id (i : item node) : outcome string :=
  match i with
  | INode n => node_id (FNode n)
  | IAtom a => node_id (FAtom a)
  end.

(** [astTgt.decorator_list], as the list a [for] loop walks. *)
Definition decorators_of (astTgt : node) : outcome (list (item node)) :=
  f ← getattr astTgt "decorator_list";
  match f with
  | FList decos => Ok decos
  | _ => raise TypeError "object is not iterable"
  end.

(** Lines 104-110: the name under which the code refers to [Freeze]; the
    local [_self] stays unbound when no decorator is found. *)
Fixpoint find_self (sc : scope) (decos : list (item node))
    : outcome (option string) :=
  match decos with
  | [] => Ok None
  | deco :: rest =>
      match deco with
      | INode (Name id _) =>
          v ← dict_getitem sc id;
          if is_Freeze v then Ok (Some id) else find_self sc rest
      | INode (Generic cls _ as call) =>
          if String.eqb cls "Call" then
            func ← getattr call "func";
            id ← node_id func;
            v ← dict_getitem sc id;
            if is_Freeze v then Ok (Some id) else find_self sc rest
          else find_self sc rest
      | _ => find_self sc rest
      end
  end.

(** Lines 112-120: [newDecoList] refers to the nodes it keeps; a reference
    is written as the position of the node in [decorator_list], starting
    at [i]. *)
Fixpoint keep_others (_self : option string) (i : nat)
    (decos : list (item node)) : outcome (list nat) :=
  match decos with
  | [] => Ok []
  | deco :: rest =>
      keep ← match deco with
              | INode (Name id _) =>
                  s ← read_local "_self" _self;
                  Ok (negb (String.eqb id s))
              | INode (Generic cls _ as call) =>
                  if String.eqb cls "Call" then
                    func ← getattr call "func";
                    id ← node_id func;
                    s ← read_local "_self" _self;
                    Ok (negb (String.eqb id s))
                  else Ok false
              | _ => Ok false
              end;
      newDecoList ← keep_others _self (S i) rest;
      Ok (if keep : bool then i :: newDecoList else newDecoList)
  end.

(** The two forms of decorator the loops look at: [isinstance(deco,
    ast.Name)] and [isinstance(deco, ast.Call)]. *)
Definition is_name_or_call (i : item node) : bool :=
  match i with
  | INode (Name _ _) => true
  | INode (Generic cls _) => String.eqb cls "Call"
  | _ => false
  end.

(** The [try] suite, lines 104-120. *)
Definition strip_try (sc : scope) (astTgt : node) : outcome (list nat) :=
  decos ← decorators_of astTgt;
  _self ← find_self sc decos;
  keep_others _self 0 decos.

(** [astTgt.value.args[0]] (line 127) *)
Definition first_argument (astTgt : node) : outcome (item node) :=
  value ← getattr astTgt "value";
  args ← match value with
          | FNode v => getattr v "args"
          | FList _ => no_attribute "list" "args"
          | FAtom _ => no_attribute "NoneType" "args"
          end;
  match args with
  | FList (a :: _) => Ok a
  | FList [] => raise IndexError "list index out of range"
  | _ => raise TypeError "object is not subscriptable"
  end.

(** What the block leaves in [isNotAssign], [astTgt] and [newDecoList]. *)
Record stripped := Stripped {
  isNotAssign : bool;
  target : item node;
  newDecoList : list nat
}.

(** Lines 103-131: an [AttributeError] of the [try] suite is handled by
    taking the first argument of the call when the statement is an
    assignment, and raised again otherwise; other exceptions pass. *)
Definition strip_block (sc : scope) (astTgt : node) : outcome stripped :=
  match strip_try sc astTgt with
  | Ok newDecoList => Ok (Stripped true (INode astTgt) newDecoList)
  | Raise e =>
      if is_AttributeError e then
        if String.eqb (node_class astTgt) "Assign" then
          a ← first_argument astTgt;
          Ok (Stripped false a [])
        else Raise e
      else Raise e
  end.

(** ** Substitution and re-synthesis (lines 143-162) *)

(** The walk changes nodes in place.  [after_walk orig visited] gives, for
    each item of a list as it was before the walk, the same object after
    it: a node of a generic class was updated in place and is the next item
    of the visited list; a [Name] node and a removed [Global] node are
    themselves untouched, whatever the list holds at their place. *)
Fixpoint after_walk (orig visited : list (item node)) : list (item node) :=
  match orig with
  | [] => []
  | INode (Generic _ _) :: rest =>
      match visited with
      | v :: vs => v :: after_walk rest vs
      | [] => []
      end
  | INode (Global _) as o :: rest => o :: after_walk rest visited
  | o :: rest => o :: after_walk rest (tail visited)
  end.

(** [newFnc.decorator_list = newDecoList] (line 146) *)
Definition set_decorator_list (newFnc : node) (decos : list (item node))
    : node :=
  match newFnc with
  | Generic cls fields =>
      Generic cls (set_assoc "decorator_list" (FList decos) fields)
  | other => other
  end.

(** [astMod.body[0].value = newFnc] (line 153) *)
Definition set_value (stmt : node) (newFnc : node) : node :=
  match stmt with
  | Generic cls fields => Generic cls (set_assoc "value" (FNode newFnc) fields)
  | other => other
  end.

(** [astMod.body[0].targets[0].id] (line 160) *)
Definition first_target_id (stmt : node) : outcome string :=
  targets ← getattr stmt "targets";
  match targets with
  | FList (t :: _) => item_id t
  | FList [] => raise IndexError "list index out of range"
  | _ => raise TypeError "object is not subscriptable"
  end.

(** The items of [n.decorator_list], for a node that has the list. *)
Definition decorator_items (n : node) : list (item node) :=
  match decorators_of n with
  | Ok decos => decos
  | Raise _ => []
  end.

(** [newFnc.name] (line 158) *)
Definition node_name (n : node) : outcome string :=
  f ← getattr n "name";
  match f with
  | FAtom (AStr name) => Ok name
  | _ => raise KeyError "name"
  end.

(** Lines 143-153: the walk over [astTgt] with the filtered scope, and the
    module tree handed to [compile]. *)
Definition rebuild (astMod : list node) (astTgt : node) (s : stripped)
    (sc : scope) : outcome (node * list node * scope) :=
  t ← match target s with
       | INode t => Ok t
       | IAtom _ => no_attribute "object" "_fields"
       end;
  let '(visited, sc') := visit t sc in
  newFnc ← match visited with
            | Some n => Ok n
            | None => no_attribute "NoneType" "_attributes"
            end;
  if isNotAssign s then
    let objects := after_walk (decorator_items t) (decorator_items newFnc) in
    let newFnc :=
      set_decorator_list newFnc (omap (λ i, objects !! i) (newDecoList s)) in
    Ok (newFnc, newFnc :: tail astMod, sc')
  else
    Ok (newFnc, set_value astTgt newFnc :: tail astMod, sc').

(** Lines 155-162: the module is executed with the globals of the module
    of [Freeze] and with the local variables of [Freeze], [own], as its
    local names; a definition hands the code of the object read back from
    [locals()] to [fnc], an assignment returns the object read back. *)
Definition resynthesize (h : Host) (own : gmap string pyobj) (fnc : pyobj)
    (s : stripped) (newFnc : node) (astMod : list node) : outcome pyobj :=
  bound ← exec_module h FreezerGlobals own astMod;
  if isNotAssign s then
    name ← node_name newFnc;
    new ← locals_getitem own bound name;
    co ← get_code h new;
    set_code fnc co
  else
    stmt ← match astMod with
            | stmt :: _ => Ok stmt
            | [] => raise IndexError "list index out of range"
            end;
    id ← first_target_id stmt;
    locals_getitem own bound id.

(** How many items a [for] loop took before it was left: [leaves deco]
    tells whether the body leaves the loop at [deco], by [break] or with an
    exception. *)
Fixpoint taken (leaves : item node → bool) (decos : list (item node)) : nat :=
  match decos with
  | [] => 0
  | deco :: rest => if leaves deco then 1 else S (taken leaves rest)
  end.

Definition bound_as {A} (name : string) (f : A → pyobj) (a : option A)
    : list (string * pyobj) :=
  match a with
  | Some a => [(name, f a)]
  | None => []
  end.

(** The variables that lines 104-120 leave bound, however the [try] suite
    is left: [deco] is the last item a loop took, [_self] is bound when the
    first loop found [Freeze], [newDecoList] holds what the second loop
    appended before it was left.  [objects] are the items of the decorator
    list in the state they are in when line 155 runs. *)
Definition loop_locals (captured : scope) (astTgt : node)
    (objects : list (item node)) : list (string * pyobj) :=
  let deco_at n :=
    bound_as "deco" (λ i, ObjData (DItem i))
      (match n with 0 => None | S n => objects !! n end) in
  match decorators_of astTgt with
  | Raise _ => []
  | Ok decos =>
      match find_self captured decos with
      | Raise _ =>
          deco_at (taken (λ deco, match find_self captured [deco] with
                                  | Ok None => false
                                  | _ => true
                                  end) decos)
      | Ok _self =>
          let n := taken (λ deco, match keep_others _self 0 [deco] with
                                  | Ok _ => false
                                  | Raise _ => true
                                  end) decos in
          let kept :=
            match keep_others _self 0 decos with
            | Ok kept => kept
            | Raise _ =>
                match keep_others _self 0 (take (pred n) decos) with
                | Ok kept => kept
                | Raise _ => []
                end
            end in
          deco_at n
          ++ bound_as "_self" (λ id, ObjOther (VStr id)) _self
          ++ [("newDecoList", ObjData (DNodes (omap (λ i, objects !! i) kept)))]
      end
  end.

(** The local variables of [Freeze] that are bound when line 155 runs, as
    [locals()] shows them: the parameters, the texts, the trees in the
    state the walk left them in (the walk changes a node of a generic
    class in place, so that [astTgt] is [newFnc] unless it is a [Name]),
    the scope as filtered and walked, and the variables of the loops that
    ran.  [src] is the text line 65 got.  [frame] was deleted; [error] and
    [e] are unbound outside their handlers. *)
Definition Freeze_locals (h : Host) (fnc : pyobj) (enforce_globals : bool)
    (overwrite_with : scope) (ignore : list string) (depth : Z)
    (captured : scope) (astTgt : node) (s : stripped) (filtered : scope)
    (newFnc : node) (astMod : list node) (walked_scope : scope)
    : gmap string pyobj :=
  let src := match getsource h fnc with Ok src => src | Raise _ => "" end in
  let objects :=
    if isNotAssign s then
      after_walk (decorator_items astTgt)
        (from_option decorator_items [] (visit astTgt filtered).1)
    else decorator_items astTgt in
  let astTgt_now :=
    match target s with
    | INode (Name id ctx) => INode (Name id ctx)
    | _ => INode newFnc
    end in
  <["overwrite_with" := ObjData (DDict overwrite_with)]>
  (<["depth" := ObjOther (VInt depth)]>
  (list_to_map
    ([("fnc", fnc);
      ("enforce_globals", ObjOther (VBool enforce_globals));
      ("ignore", ObjData (DStrings ignore));
      ("src", ObjOther (VStr src));
      ("source_code", ObjOther (VStr (cleandoc h src)));
      ("astMod", ObjData (DModule astMod));
      ("astTgt", ObjData (DItem astTgt_now));
      ("scope", ObjData (DDict walked_scope));
      ("isNotAssign", ObjOther (VBool (isNotAssign s)));
      ("newFnc", ObjData (DItem (INode newFnc)))]
     ++ loop_locals captured astTgt objects
     ++ bound_as "key" (λ kv, ObjOther (VStr kv.1)) (last_item h captured)
     ++ bound_as "value" (λ kv, ObjOther kv.2) (last_item h captured)))).

(** ** [Freeze] (lines 48-162) *)

Inductive fnc_arg :=
| NotInitialized
| Target (o : pyobj).

(** The function line 55 returns: a lambda that remembers the options. *)
Record decorator := Decorator {
  dec_enforce_globals : bool;
  dec_overwrite_with : scope;
  dec_ignore : list string
}.

Inductive freeze_value :=
| Deferred (d : decorator)
| Frozen (o : pyobj).

(** One call of [Freeze]: the lines printed, the scope after the filtering
    loop when the call gets that far, and what the call returns or raises. *)
Record run := Run {
  printed : list string;
  filtered : option scope;
  returned : outcome freeze_value
}.

Definition announce (name : string) : string :=
  ">>> Excecuting `Freeze` for funcion `" ++ name ++ "`.".

Definition Freeze (h : Host) (callers : list frame) (fnc : fnc_arg)
    (enforce_globals : bool) (overwrite_with : scope) (ignore : list string)
    (depth : Z) : run :=
  match fnc with
  | NotInitialized =>
      Run [] None (Ok (Deferred (Decorator enforce_globals overwrite_with ignore)))
  | Target fnc =>
      if negb (is_function_or_type fnc)
      then Run [] None (raise FreezeError "incorrect input.")
      else
        let out := [announce (qualname fnc)] in
        match capture_block h fnc enforce_globals depth callers with
        | Raise e => Run out None (Raise e)
        | Ok (astMod, astTgt, sc) =>
            match strip_block sc astTgt with
            | Raise e => Run out None (Raise e)
            | Ok s =>
                match filter_scope ignore sc with
                | Raise e => Run out None (Raise e)
                | Ok filtered =>
                    Run out (Some filtered)
                      ('(newFnc, astMod, walked_scope) ←
                         rebuild astMod astTgt s filtered;
                       fnc ← resynthesize h
                               (Freeze_locals h fnc enforce_globals
                                  overwrite_with ignore depth sc astTgt s
                                  filtered newFnc astMod walked_scope)
                               fnc s newFnc astMod;
                       Ok (Frozen fnc))
                end
            end
        end
  end.

(** Calling the lambda of lines 55-58 with [_fnc]: [Freeze] runs with
    [depth = 1], one frame (the one of the lambda) further from the place
    of the definition. *)
Definition call_decorator (h : Host) (callers : list frame)
    (lambda_frame : frame) (d : decorator) (_fnc : fnc_arg) : run :=
  Freeze h (lambda_frame :: callers) _fnc (dec_enforce_globals d)
    (dec_overwrite_with d) (dec_ignore d) 1.

(** ** Programs and interpreters used as examples *)

(** An interpreter that knows one source text and its parse, compiles
    every tree and evaluates every definition without error.  A statement
    outside [exec_stmt] is a definition that still carries decorators: their
    names are not bound in the namespace of [Freeze].  No object known by
    its address has a [__code__], and a dictionary is walked in the order
    of [map_to_list]. *)
Definition simple_host (src : string) (tree : list node) : Host := {|
  getsource := λ _, Ok src;
  cleandoc := λ s, s;
  parse := λ text,
    if String.eqb text src then Ok tree else raise SyntaxError "invalid syntax";
  compile := λ _, Ok tt;
  evaluate := λ _ _ _, Ok tt;
  exec_host := λ _ _ _, raise NameError "name is not defined";
  code_at := λ _, None;
  last_item := λ d, last (map_to_list d);
  fresh := 100%N
|}.

(** An interpreter that cannot find the source of any object (a function
    typed at the prompt or built by [exec]). *)
Definition sourceless_host : Host := {|
  getsource := λ _, raise OSError "could not get source code";
  cleandoc := λ s, s;
  parse := λ _, raise SyntaxError "invalid syntax";
  compile := λ _, Ok tt;
  evaluate := λ _ _ _, Ok tt;
  exec_host := λ _ _ _, raise NameError "name is not defined";
  code_at := λ _, None;
  last_item := λ d, last (map_to_list d);
  fresh := 100%N
|}.

(** A module-level frame: its locals are its globals. *)
Definition module_frame (globals : scope) : frame := Frame globals globals.

Definition a_function : value := VObject (Builtin TFunction) 5%N.

(** [X = 5], then
    [@Freeze def f(): a = X; X = 10; b = X; return (a, b)] *)
Definition read_write_body : list node :=
  [Assign [Name "a" Store] (Name "X" Load);
   Assign [Name "X" Store] (Constant (VInt 10) ANone);
   Assign [Name "b" Store] (Name "X" Load);
   Return (Tuple [Name "a" Load; Name "b" Load] Load)].

Definition read_write_frozen : list node :=
  [Assign [Name "a" Store] (Constant (VInt 5) ANone);
   Assign [Name "X" Store] (Constant (VInt 10) ANone);
   Assign [Name "b" Store] (Name "X" Load);
   Return (Tuple [Name "a" Load; Name "b" Load] Load)].

Definition read_write_def (body : list node) (decorators : list node) : node :=
  FunctionDef "f" (arguments []) body decorators.

(** [N = 3], then [@Freeze def power(x): return x ** N] *)
Definition nl : string := String (Ascii.ascii_of_nat 10) "".
Definition power_src : string :=
  "@Freeze" ++ nl ++ "def power(x): return x ** N".
Definition power_def (exponent : node) (decorators : list node) : node :=
  FunctionDef "power" (arguments [arg "x"])
    [Return (BinOp (Name "x" Load) "Pow" exponent)] decorators.
Definition power_globals : scope :=
  {[ "N" := VInt 3; "Freeze" := Freeze_value ]}.
Definition power_fnc : function_obj :=
  Function 7%N "power"
    (Compiled (power_def (Name "N" Load) [Name "Freeze" Load]))
    (ModuleGlobals "__main__").

(** [N = 3], then [@Freeze class Box: size = N] *)
Definition box_src : string :=
  "@Freeze" ++ nl ++ "class Box: size = N".
Definition box_def (size : node) (decorators : list node) : node :=
  ClassDef "Box" [] [Assign [Name "size" Store] size] decorators.
Definition box_cls : class_obj := Class 8%N "Box" None.

(** [import functools], then
    [@functools.cache @Freeze def power(x): return x ** N] *)
Definition cached_src : string :=
  "@functools.cache" ++ nl ++ power_src.
Definition cached_decorators : list node :=
  [Attribute (Name "functools" Load) "cache" Load; Name "Freeze" Load].
Definition cached_globals : scope :=
  {[ "N" := VInt 3; "Freeze" := Freeze_value;
     "functools" := VObject (Builtin TModule) 6%N ]}.

(** [def other(f): return f], then [g = other(lambda x: scale(x) + N)] and
    later [h = Freeze(g)] *)
Definition wrapped_src : string := "g = other(lambda x: scale(x) + N)".
Definition wrapped_lambda (n : node) : node :=
  Lambda (arguments [arg "x"])
    (BinOp (Call (Name "scale" Load) [Name "x" Load]) "Add" n).
Definition wrapped_stmt (callee : string) : node :=
  Assign [Name "g" Store]
    (Call (Name callee Load) [wrapped_lambda (Name "N" Load)]).
Definition wrapped_globals : scope :=
  {[ "N" := VInt 3; "Freeze" := Freeze_value; "other" := a_function;
     "scale" := VObject (Builtin TFunction) 4%N;
     "g" := VObject (Builtin TFunction) 9%N ]}.
Definition wrapped_fnc : function_obj :=
  Function 9%N "<lambda>" (Compiled (wrapped_lambda (Name "N" Load)))
    (ModuleGlobals "__main__").

(** The same lambda frozen where it is written:
    [g = Freeze(lambda x: scale(x) + N)]; [g] is not bound yet when
    [Freeze] runs. *)
Definition direct_src : string := "g = Freeze(lambda x: scale(x) + N)".
Definition direct_globals : scope :=
  {[ "N" := VInt 3; "Freeze" := Freeze_value;
     "scale" := VObject (Builtin TFunction) 4%N ]}.

(** [def apply(f): return Freeze(f)], then [apply(lambda x: scale(x) + N)]:
    the statement is an expression, and the caller of [Freeze] is the frame
    of [apply]. *)
Definition applied_src : string := "apply(lambda x: scale(x) + N)".
Definition applied_stmt : node :=
  Expr (Call (Name "apply" Load) [wrapped_lambda (Name "N" Load)]).
Definition applied_globals : scope :=
  {[ "N" := VInt 3; "Freeze" := Freeze_value;
     "scale" := VObject (Builtin TFunction) 4%N;
     "apply" := VObject (Builtin TFunction) 3%N ]}.
Definition applied_callers : list frame :=
  [Frame applied_globals {[ "f" := VObject (Builtin TFunction) 9%N ]};
   module_frame applied_globals].

(** A method, whose source is indented: the cleaned text parses, the raw
    text does not. *)
Definition method_src : string := "    def area(self): return self.side ** N".
Definition method_cleaned : string := "def area(self): return self.side ** N".
Definition method_def : node :=
  FunctionDef "area" (arguments [arg "self"])
    [Return (BinOp (Attribute (Name "self" Load) "side" Load) "Pow"
               (Name "N" Load))] [].
Definition unparsable_host : Host := {|
  getsource := λ _, Ok method_src;
  cleandoc := λ _, method_cleaned;
  parse := λ text,
    if String.eqb text method_cleaned then Ok [method_def]
    else raise IndentationError "unexpected indent";
  compile := λ _, Ok tt;
  evaluate := λ _ _ _, Ok tt;
  exec_host := λ _ _ _, raise NameError "name is not defined";
  code_at := λ _, None;
  last_item := λ d, last (map_to_list d);
  fresh := 100%N
|}.

(** The hypothesis of the self-reference rule, in the words of the
    specification: the statement is an assignment whose value is a call to
    this operation. *)
Definition assigns_call_to_Freeze (sc : scope) (stmt : node) : bool :=
  String.eqb (node_class stmt) "Assign" &&
  match getattr stmt "value" with
  | Ok (FNode (Generic cls fields)) =>
      String.eqb cls "Call" &&
      match assoc "func" fields with
      | Some (FNode (Name id _)) =>
          match sc !! id with
          | Some v => is_Freeze v
          | None => false
          end
      | _ => false
      end
  | _ => false
  end.

(** A class deriving from [int]: [class Meters(int): pass], and
    [LIMIT = Meters(7)]. *)
Definition Meters : pytype := UserClass "Meters" [Builtin TInt].
Definition a_meters : value := VObject Meters 11%N.

(** ** Measures and predicates used by further properties *)

(** The number of [Global] nodes in a tree. *)
Fixpoint globals_in (n : node) : nat :=
  match n with
  | Global _ => 1
  | Name _ _ | Constant _ _ => 0
  | Generic _ fields =>
      (fix go (fs : list (string * field)) : nat :=
         match fs with
         | [] => 0
         | (_, f) :: rest => globals_in_field f + go rest
         end) fields
  end
with globals_in_field (f : field) : nat :=
  match f with
  | FNode n => globals_in n
  | FList items =>
      (fix go (l : list (item node)) : nat :=
         match l with
         | [] => 0
         | INode n :: rest => globals_in n + go rest
         | IAtom _ :: rest => go rest
         end) items
  | FAtom _ => 0
  end.

Definition globals_in_item (i : item node) : nat :=
  match i with INode n => globals_in n | IAtom _ => 0 end.

Definition globals_in_items (l : list (item node)) : nat :=
  foldr (λ i k, globals_in_item i + k) 0 l.

Definition globals_in_fields (fs : list (string * field)) : nat :=
  foldr (λ p k, globals_in_field p.2 + k) 0 fs.

(** The test of lines 115 and 119 once [_self] is [s]: a name other than
    [s], or a call of a name other than [s]. *)
Definition keeps (s : string) (deco : item node) : bool :=
  match deco with
  | INode (Name id _) => negb (String.eqb id s)
  | INode (Generic cls fields) =>
      String.eqb cls "Call" &&
      match assoc "func" fields with
      | Some (FNode (Name id _)) => negb (String.eqb id s)
      | _ => false
      end
  | _ => false
  end.

(** An interpreter whose [compile] and [exec] raise no [FreezeError] of
    their own. *)
Definition raises_no_FreezeError (h : Host) : Prop :=
  (∀ m e, compile h m = Raise e → is_FreezeError e = false) ∧
  (∀ ns l n e, evaluate h ns l n = Raise e → is_FreezeError e = false) ∧
  (∀ ns l n e, exec_host h ns l n = Raise e → is_FreezeError e = false).

(** The name lines 158 and 160 look up in [locals()]. *)
Definition read_back (s : stripped) (newFnc : node) (astMod : list node)
    : outcome string :=
  if isNotAssign s then node_name newFnc
  else
    stmt ← match astMod with
            | stmt :: _ => Ok stmt
            | [] => raise IndexError "list index out of range"
            end;
    first_target_id stmt.

(** The name a call of [Freeze] looks up in [locals()] after [exec], when
    the call gets as far as line 155 and the name can be read. *)
Definition looked_up (h : Host) (callers : list frame) (fnc : pyobj)
    (enforce_globals : bool) (ignore : list string) (depth : Z)
    : option string :=
  match capture_block h fnc enforce_globals depth callers with
  | Ok (astMod, astTgt, sc) =>
      match strip_block sc astTgt, filter_scope ignore sc with
      | Ok s, Ok filtered =>
          match rebuild astMod astTgt s filtered with
          | Ok (newFnc, astMod, _) =>
              match read_back s newFnc astMod with
              | Ok name => Some name
              | Raise _ => None
              end
          | Raise _ => None
          end
      | _, _ => None
      end
  | Raise _ => None
  end.

(** An interpreter for which the local name [k] makes no difference to
    what executing a statement does: the statement does not read [k]. *)
Definition ignores_local (h : Host) (k : string) : Prop :=
  ∀ ns (l1 l2 : gmap string pyobj) n,
    (∀ j, j ≠ k → l1 !! j = l2 !! j) →
    evaluate h ns l1 n = evaluate h ns l2 n ∧
    exec_host h ns l1 n = exec_host h ns l2 n.

(** [target = Freeze(lambda x: scale(x) + N, False, options())], for a
    target that is also the name of a local variable of [Freeze]. *)
Definition option_src (target : string) : string :=
  target ++ " = Freeze(lambda x: scale(x) + N, False, options())".
Definition option_stmt (target : string) : node :=
  Assign [Name target Store]
    (Call (Name "Freeze" Load)
       [wrapped_lambda (Name "N" Load); Constant (VBool false) ANone;
        Call (Name "options" Load) []]).
Definition option_globals : scope :=
  {[ "N" := VInt 3; "Freeze" := Freeze_value;
     "scale" := VObject (Builtin TFunction) 4%N;
     "options" := VObject (Builtin TFunction) 3%N ]}.

(** [@Freeze def name(x): return x ** N], for a name that is also the name
    of a local variable of [Freeze]. *)
Definition named_src (name : string) : string :=
  "@Freeze" ++ nl ++ "def " ++ name ++ "(x): return x ** N".
Definition named_def (name : string) (exponent : node) : node :=
  FunctionDef name (arguments [arg "x"])
    [Return (BinOp (Name "x" Load) "Pow" exponent)] [Name "Freeze" Load].
Definition named_fnc (name : string) : function_obj :=
  Function 7%N name (Compiled (named_def name (Name "N" Load)))
    (ModuleGlobals "__main__").

(** [def power(x): return x ** N], then [power = logged(power)] with a
    decorator written with [functools.wraps], and [Freeze(power)]: the
    source found is the one of the wrapped function, the function given is
    the wrapper, which closes over [func]. *)
Definition plain_src : string := "def power(x): return x ** N".
Definition wrapper_def : node :=
  FunctionDef "wrapper" (arguments [arg "x"])
    [Return (Call (Name "func" Load) [Name "x" Load])]
    [Call (Attribute (Name "functools" Load) "wraps" Load) [Name "func" Load]].
Definition wrapper_fnc : function_obj :=
  Function 12%N "power" (Nested wrapper_def 1) (ModuleGlobals "__main__").

(** [N = 3], then [@Freeze def shadow(N): return N] *)
Definition shadow_def (result : node) : node :=
  FunctionDef "shadow" (arguments (arg <$> ["N"])) [Return result] [].

(** [@staticmethod] above [@Freeze]: [staticmethod] is a builtin, not a
    name of the module. *)
Definition static_src : string := "@staticmethod" ++ nl ++ power_src.
Definition static_decorators : list node :=
  [Name "staticmethod" Load; Name "Freeze" Load].

(** [@trace] on [def power], and [Freeze(power)] called afterwards. *)
Definition traced_globals : scope :=
  {[ "N" := VInt 3; "Freeze" := Freeze_value; "trace" := a_function ]}.

(** [@functools.lru_cache(maxsize=None)] above [@Freeze] *)
Definition lru_cache_call : node :=
  Call (Attribute (Name "functools" Load) "lru_cache" Load) [].

(** [@trace] above [@Freeze] and [@retry(...)] below it. *)
Definition mixed_decorators : list node :=
  [Name "trace" Load; Name "Freeze" Load; Call (Name "retry" Load) []].
Definition mixed_globals : scope :=
  {[ "N" := VInt 3; "Freeze" := Freeze_value; "trace" := a_function;
     "retry" := VObject (Builtin TFunction) 2%N ]}.

(** * Properties *)

(** ** Induction over syntax trees *)

Section node_induction.
Variables (P : node → Prop) (Q : field → Prop).
Hypothesis HName : ∀ id ctx, P (Name id ctx).
Hypothesis HConstant : ∀ v kind, P (Constant v kind).
Hypothesis HGlobal : ∀ names, P (Global names).
Hypothesis HGeneric : ∀ cls fields, Forall (λ p, Q p.2) fields → P (Generic cls fields).
Hypothesis HNode : ∀ n, P n → Q (FNode n).
Hypothesis HList :
  ∀ items, Forall (λ i, match i with INode n => P n | IAtom _ => True end) items →
           Q (FList items).
Hypothesis HAtom : ∀ a, Q (FAtom a).

Fixpoint node_induction (n : node) : P n :=
  match n with
  | Name id ctx => HName id ctx
  | Constant v kind => HConstant v kind
  | Global names => HGlobal names
  | Generic cls fields =>
      HGeneric cls fields
        ((fix go (fs : list (string * field)) : Forall (λ p, Q p.2) fs :=
            match fs with
            | [] => List.Forall_nil _
            | (name, f) :: rest =>
                List.Forall_cons _ (name, f) rest (field_induction f) (go rest)
            end) fields)
  end
with field_induction (f : field) : Q f :=
  match f with
  | FNode n => HNode n (node_induction n)
  | FList items =>
      HList items
        ((fix go (l : list (item node)) : Forall _ l :=
            match l with
            | [] => List.Forall_nil _
            | INode n :: rest =>
                List.Forall_cons _ (INode n) rest (node_induction n) (go rest)
            | IAtom a :: rest => List.Forall_cons _ (IAtom a) rest I (go rest)
            end) items)
  | FAtom a => HAtom a
  end.

Lemma node_field_ind : (∀ n, P n) ∧ (∀ f, Q f).
Proof. split; [apply node_induction | apply field_induction]. Qed.
End node_induction.

(** ** The walk, equation by equation *)

Lemma visit_Generic cls fields d :
  visit (Generic cls fields) d =
  let '(fields', d') := visit_fields fields d in (Some (Generic cls fields'), d').
Proof. reflexivity. Qed.

Lemma visit_field_FList items d :
  visit_field (FList items) d =
  let '(items', d') := visit_items items d in (Some (FList items'), d').
Proof. reflexivity. Qed.

Lemma reads_Generic x cls fields :
  reads x (Generic cls fields) = reads_fields x fields.
Proof.
  simpl. induction fields as [|[name f] rest IH]; simpl; [done|].
  by rewrite IH.
Qed.

Lemma reads_field_FList x items :
  reads_field x (FList items) = reads_items x items.
Proof.
  simpl. induction items as [|[n|a] rest IH]; simpl; [done| |done].
  by rewrite IH.
Qed.

Lemma writes_Generic x cls fields :
  writes x (Generic cls fields) = writes_fields x fields.
Proof.
  simpl. induction fields as [|[name f] rest IH]; simpl; [done|].
  by rewrite IH.
Qed.

Lemma writes_field_FList x items :
  writes_field x (FList items) = writes_items x items.
Proof.
  simpl. induction items as [|[n|a] rest IH]; simpl; [done| |done].
  by rewrite IH.
Qed.

Lemma visit_field_FNode n d :
  visit_field (FNode n) d = ((FNode <$> (visit n d).1), (visit n d).2).
Proof. simpl. by destruct (visit n d). Qed.

Lemma visit_items_cons_node n rest d :
  visit_items (INode n :: rest) d =
  (match (visit n d).1 with
   | Some n' => INode n' :: (visit_items rest (visit n d).2).1
   | None => (visit_items rest (visit n d).2).1
   end, (visit_items rest (visit n d).2).2).
Proof.
  simpl. destruct (visit n d) as [n' d1]; simpl.
  by destruct (visit_items rest d1).
Qed.

Lemma visit_items_cons_atom a rest d :
  visit_items (IAtom a :: rest) d =
  (IAtom a :: (visit_items rest d).1, (visit_items rest d).2).
Proof. simpl. by destruct (visit_items rest d). Qed.

Lemma visit_fields_cons name f rest d :
  visit_fields ((name, f) :: rest) d =
  (match (visit_field f d).1 with
   | Some f' => (name, f') :: (visit_fields rest (visit_field f d).2).1
   | None => (visit_fields rest (visit_field f d).2).1
   end, (visit_fields rest (visit_field f d).2).2).
Proof.
  simpl. destruct (visit_field f d) as [f' d1]; simpl.
  by destruct (visit_fields rest d1).
Qed.

(** ** A name that is not in the scope *)

(** The walk never adds a key, and it leaves every read of a name that is
    not in the scope where it is. *)
Lemma visit_absent x :
  (∀ n d, d !! x = None →
     (visit n d).2 !! x = None ∧
     from_option (reads x) 0 (visit n d).1 = reads x n) ∧
  (∀ f d, d !! x = None →
     (visit_field f d).2 !! x = None ∧
     from_option (reads_field x) 0 (visit_field f d).1 = reads_field x f).
Proof.
  apply node_field_ind.
  - intros id ctx d Hx. simpl. unfold visit_Name.
    destruct (d !! id) as [v|] eqn:Hid.
    + assert (id ≠ x) as Hne by congruence.
      assert (String.eqb id x = false) as Hb by by apply String.eqb_neq.
      destruct ctx; simpl; rewrite ?Hb; split; try done;
        by rewrite lookup_delete_ne.
    + by destruct ctx.
  - done.
  - done.
  - intros cls fields IH d Hx. rewrite visit_Generic, reads_Generic.
    assert ((visit_fields fields d).2 !! x = None ∧
            reads_fields x (visit_fields fields d).1 = reads_fields x fields)
      as [H1 H2].
    { revert d Hx. induction IH as [|[name f] rest Hf _ IHrest]; intros d Hx.
      - done.
      - rewrite visit_fields_cons. simpl in Hf.
        destruct (Hf d Hx) as [Hd Hr].
        destruct (IHrest _ Hd) as [Hd' Hr']. split; [done|].
        destruct (visit_field f d).1 as [f'|]; simpl in *; lia. }
    destruct (visit_fields fields d) as [fields' d']. cbn [fst snd] in *.
    split; [done|]. cbn [from_option]. by rewrite reads_Generic.
  - intros n IH d Hx. rewrite visit_field_FNode. simpl.
    destruct (IH d Hx) as [Hd Hr]. split; [done|].
    by destruct (visit n d).1.
  - intros items IH d Hx. rewrite visit_field_FList, reads_field_FList.
    assert ((visit_items items d).2 !! x = None ∧
            reads_items x (visit_items items d).1 = reads_items x items)
      as [H1 H2].
    { revert d Hx. induction IH as [|[n|a] rest Hf _ IHrest]; intros d Hx.
      - done.
      - rewrite visit_items_cons_node.
        destruct (Hf d Hx) as [Hd Hr].
        destruct (IHrest _ Hd) as [Hd' Hr']. split; [done|].
        destruct (visit n d).1 as [n'|]; simpl in *; lia.
      - rewrite visit_items_cons_atom.
        destruct (IHrest d Hx) as [Hd' Hr']. split; [done|].
        simpl in *. lia. }
    destruct (visit_items items d) as [items' d']. cbn [fst snd] in *.
    split; [done|]. cbn [from_option]. by rewrite reads_field_FList.
  - done.
Qed.

(** ** A name that is in the scope and is never written *)

(** While no write of [x] is met, the binding of [x] stays in the scope and
    every read of [x] is replaced. *)
Lemma visit_present x v :
  (∀ n d, d !! x = Some v → writes x n = 0 →
     (visit n d).2 !! x = Some v ∧
     from_option (reads x) 0 (visit n d).1 = 0) ∧
  (∀ f d, d !! x = Some v → writes_field x f = 0 →
     (visit_field f d).2 !! x = Some v ∧
     from_option (reads_field x) 0 (visit_field f d).1 = 0).
Proof.
  apply node_field_ind.
  - intros id ctx d Hx Hw. simpl. unfold visit_Name.
    destruct (String.eqb id x) eqn:Hb.
    + apply String.eqb_eq in Hb as ->. rewrite Hx.
      destruct ctx; simpl in Hw; rewrite ?String.eqb_refl in Hw; done.
    + assert (id ≠ x) as Hne by by apply String.eqb_neq.
      destruct (d !! id) as [w|]; destruct ctx; simpl; rewrite ?Hb;
        split; try done; by rewrite lookup_delete_ne.
  - done.
  - done.
  - intros cls fields IH d Hx Hw.
    rewrite visit_Generic. rewrite writes_Generic in Hw.
    assert ((visit_fields fields d).2 !! x = Some v ∧
            reads_fields x (visit_fields fields d).1 = 0) as [H1 H2].
    { revert d Hx Hw.
      induction IH as [|[name f] rest Hf _ IHrest]; intros d Hx Hw.
      - done.
      - rewrite visit_fields_cons. simpl in Hf, Hw.
        destruct (Hf d Hx) as [Hd Hr]; [lia|].
        destruct (IHrest _ Hd) as [Hd' Hr']; [lia|]. split; [done|].
        destruct (visit_field f d).1 as [f'|]; simpl in *; lia. }
    destruct (visit_fields fields d) as [fields' d']. cbn [fst snd] in *.
    split; [done|]. cbn [from_option]. by rewrite reads_Generic.
  - intros n IH d Hx Hw. rewrite visit_field_FNode. simpl in *.
    destruct (IH d Hx Hw) as [Hd Hr]. split; [done|].
    by destruct (visit n d).1.
  - intros items IH d Hx Hw.
    rewrite visit_field_FList. rewrite writes_field_FList in Hw.
    assert ((visit_items items d).2 !! x = Some v ∧
            reads_items x (visit_items items d).1 = 0) as [H1 H2].
    { revert d Hx Hw.
      induction IH as [|[n|a] rest Hf _ IHrest]; intros d Hx Hw.
      - done.
      - rewrite visit_items_cons_node. simpl in Hw.
        destruct (Hf d Hx) as [Hd Hr]; [lia|].
        destruct (IHrest _ Hd) as [Hd' Hr']; [lia|]. split; [done|].
        destruct (visit n d).1 as [n'|]; simpl in *; lia.
      - rewrite visit_items_cons_atom. simpl in Hw.
        destruct (IHrest d Hx) as [Hd' Hr']; [lia|]. split; [done|].
        simpl in *. lia. }
    destruct (visit_items items d) as [items' d']. cbn [fst snd] in *.
    split; [done|]. cbn [from_option]. by rewrite reads_field_FList.
  - done.
Qed.

(** ** Tree substitution *)

(** C1.  A read of an identifier that is in the scope is replaced by a
    literal node with the captured value, and the scope is unchanged.  A
    write of it (any context other than [Load]) leaves the node as it is
    and removes the entry; from then on, whatever is walked in between,
    the entry stays absent and every read of the identifier in a tree
    walked later is left in place.  For [a = X; X = 10; b = X; return (a, b)]
    with [X = 5] captured, the walk yields [a = 5; X = 10; b = X;
    return (a, b)]. *)
Theorem visit_Name_read_and_write (d : scope) (id : string) (v : value)
    (ctx : expr_context) (between later : node) :
  d !! id = Some v →
  ctx ≠ Load →
  visit_Name id Load d = (Constant v ANone, d) ∧
  visit_Name id ctx d = (Name id ctx, delete id d) ∧
  (let d1 := (visit between (visit_Name id ctx d).2).2 in
   d1 !! id = None ∧
   (visit later d1).2 !! id = None ∧
   from_option (reads id) 0 (visit later d1).1 = reads id later) ∧
  (visit (read_write_def read_write_body [Name "Freeze" Load])
         {[ "X" := VInt 5 ]}).1
  = Some (read_write_def read_write_frozen [Name "Freeze" Load]).
Proof.
  intros Hid Hctx.
  assert (visit_Name id ctx d = (Name id ctx, delete id d)) as Hwrite.
  { unfold visit_Name. rewrite Hid. by destruct ctx. }
  split; [by unfold visit_Name; rewrite Hid|].
  split; [done|]. split; [|by vm_compute].
  rewrite Hwrite. cbv zeta. cbn [snd].
  destruct (visit_absent id) as [Hnode _].
  assert ((visit between (delete id d)).2 !! id = None) as Hd1.
  { apply Hnode. apply lookup_delete_eq. }
  split; [done|]. by apply Hnode.
Qed.

Lemma visit_Name_read_and_write_witness :
  ({[ "X" := VInt 5 ]} : scope) !! "X" = Some (VInt 5) ∧
  Store ≠ Load ∧
  visit_Name "X" Load {[ "X" := VInt 5 ]}
  = (Constant (VInt 5) ANone, {[ "X" := VInt 5 ]}) ∧
  visit_Name "X" Store {[ "X" := VInt 5 ]}
  = (Name "X" Store, delete "X" ({[ "X" := VInt 5 ]} : scope)) ∧
  (let d1 := (visit (Constant (VInt 10) ANone)
                (visit_Name "X" Store {[ "X" := VInt 5 ]}).2).2 in
   d1 !! "X" = None ∧
   (visit (Name "X" Load) d1).2 !! "X" = None ∧
   from_option (reads "X") 0 (visit (Name "X" Load) d1).1
   = reads "X" (Name "X" Load)) ∧
  (visit (read_write_def read_write_body [Name "Freeze" Load])
         {[ "X" := VInt 5 ]}).1
  = Some (read_write_def read_write_frozen [Name "Freeze" Load]).
Proof.
  split; [reflexivity|]. split; [discriminate|].
  apply (visit_Name_read_and_write {[ "X" := VInt 5 ]} "X" (VInt 5) Store
           (Constant (VInt 10) ANone) (Name "X" Load));
    [reflexivity | discriminate].
Defined.

(** [X = 5] and [@Freeze def f(): a = X; X = 10; b = X; return (a, b)]
    through [Freeze]: the function returned is the one given, with the code
    of [def f(): a = 5; X = 10; b = X; return (a, b)]. *)
Example read_write_through_Freeze :
  let f := Function 7 "f"
             (Compiled (read_write_def read_write_body [Name "Freeze" Load]))
             (ModuleGlobals "__main__") in
  returned (Freeze (simple_host "f" [read_write_def read_write_body
                                       [Name "Freeze" Load]])
              [module_frame {[ "X" := VInt 5; "Freeze" := Freeze_value ]}]
              (Target (ObjFunction f)) false ∅ [] 0)
  = Ok (Frozen (ObjFunction
                  (Function 7 "f"
                     (Compiled (read_write_def read_write_frozen []))
                     (ModuleGlobals "__main__")))).
Proof. by vm_compute. Qed.

(** [N = 3] and [@Freeze def power(x): return x ** N]: the code returned
    is the one of [def power(x): return x ** 3], and only the constant [N]
    is left in the scope. *)
Example power_is_frozen :
  let r := Freeze (simple_host power_src
                     [power_def (Name "N" Load) [Name "Freeze" Load]])
             [module_frame power_globals] (Target (ObjFunction power_fnc))
             false ∅ [] 0 in
  printed r = [">>> Excecuting `Freeze` for funcion `power`."] ∧
  filtered r = Some {[ "N" := VInt 3 ]} ∧
  returned r
  = Ok (Frozen (ObjFunction
                  (Function 7 "power"
                     (Compiled (power_def (Constant (VInt 3) ANone) []))
                     (ModuleGlobals "__main__")))).
Proof. by vm_compute. Qed.

(** ** Scope capture *)

(** The frame whose namespaces are captured is the one of the caller, also
    when [Freeze] runs inside the lambda it returned. *)
Lemma select_frame_caller caller outer lambda_frame :
  select_frame 0 (caller :: outer) = Ok (Some caller) ∧
  select_frame 1 (lambda_frame :: caller :: outer) = Ok (Some caller).
Proof. done. Qed.

(** C2.  For a name bound in both namespaces of the frame, the captured
    scope holds the local value when [enforce_globals] is false and the
    global value when it is true; a name bound in one namespace only keeps
    that binding in either mode, and a name bound in neither is absent. *)
Theorem capture_scope_precedence (fr : frame) (name : string) :
  (∀ g l, f_globals fr !! name = Some g → f_locals fr !! name = Some l →
          capture_scope false fr !! name = Some l ∧
          capture_scope true fr !! name = Some g) ∧
  (∀ g b, f_globals fr !! name = Some g → f_locals fr !! name = None →
          capture_scope b fr !! name = Some g) ∧
  (∀ l b, f_globals fr !! name = None → f_locals fr !! name = Some l →
          capture_scope b fr !! name = Some l) ∧
  (∀ b, f_globals fr !! name = None → f_locals fr !! name = None →
        capture_scope b fr !! name = None).
Proof.
  unfold capture_scope, dict_update.
  split; [|split; [|split]].
  - intros g l Hg Hl. split; by apply lookup_union_Some_l.
  - intros g b Hg Hl. destruct b.
    + by apply lookup_union_Some_l.
    + by rewrite lookup_union_r.
  - intros l b Hg Hl. destruct b.
    + by rewrite lookup_union_r.
    + by apply lookup_union_Some_l.
  - intros b Hg Hl. destruct b; by apply lookup_union_None_2.
Qed.

Example capture_scope_shadowing :
  let fr := Frame {[ "x" := VInt 1; "y" := VInt 2 ]}
                  {[ "x" := VInt 10; "z" := VInt 3 ]} in
  capture_scope false fr !! "x" = Some (VInt 10) ∧
  capture_scope true fr !! "x" = Some (VInt 1) ∧
  capture_scope false fr !! "y" = Some (VInt 2) ∧
  capture_scope true fr !! "z" = Some (VInt 3).
Proof. by vm_compute. Qed.

(** ** Constant filtering *)

Lemma isinstance_spec v types :
  isinstance v types = true ↔
  ∃ b, b ∈ types ∧ issubclass (type_of v) b = true.
Proof.
  unfold isinstance. rewrite existsb_exists.
  split; intros (b & Hb & Hs); exists b; split; try done;
    by apply list_elem_of_In.
Qed.

(** The loop over any list of distinct items that are in the scope: it
    never raises, and it removes exactly the listed items that are not
    freezable. *)
Lemma filter_loop_lookup ignore items :
  ∀ sc : scope,
    NoDup items.*1 →
    (∀ k v, (k, v) ∈ items → sc !! k = Some v) →
    ∃ sc' : scope,
      filter_loop ignore items sc = Ok sc' ∧
      ∀ k v, sc' !! k = Some v ↔
             sc !! k = Some v ∧ ((k, v) ∈ items → freezable ignore (k, v)).
Proof.
  induction items as [|[k0 v0] rest IH]; intros sc Hnd Hin.
  - exists sc. split; [done|]. intros k v. split; [|by intros [? _]].
    intros Hk. split; [done|]. by intros ?%elem_of_nil.
  - apply NoDup_cons in Hnd as [Hk0 Hnd]. cbn [fmap list_fmap fst] in Hk0.
    assert (sc !! k0 = Some v0) as Hsc by (apply Hin; left).
    assert (∀ k v, (k, v) ∈ rest → k ≠ k0) as Hne.
    { intros k v Hkv ->. apply Hk0. apply list_elem_of_fmap.
      by exists (k0, v). }
    destruct (decide (freezable ignore (k0, v0))) as [Hfz|Hfz].
    + (* the item is kept *)
      destruct (IH sc Hnd) as (sc' & Hloop & Hspec).
      { intros k v Hkv. apply Hin. by right. }
      exists sc'. split.
      * destruct Hfz as [Hty Hig]. cbn [fst snd] in Hty, Hig.
        cbn [filter_loop filter_step]. rewrite Hty. cbn [negb].
        rewrite bool_decide_eq_false_2 by done. exact Hloop.
      * intros k v. rewrite Hspec. split; intros [Hk Himp]; (split; [done|]).
        -- intros [Heq|Hrest]%elem_of_cons; [by inversion Heq; subst|auto].
        -- intros Hrest. apply Himp. by right.
    + (* the item is deleted *)
      destruct (IH (delete k0 sc) Hnd) as (sc' & Hloop & Hspec).
      { intros k v Hkv. rewrite lookup_delete_ne by (symmetry; eauto).
        apply Hin. by right. }
      exists sc'. split.
      * cbn [filter_loop filter_step]. unfold dict_delitem. rewrite Hsc.
        unfold freezable in Hfz. cbn [fst snd] in Hfz.
        destruct (isinstance v0 _constantTypes) eqn:Hty; cbn [negb].
        -- rewrite bool_decide_eq_true_2; [exact Hloop|].
           destruct (decide (k0 ∈ ignore)); [done|]. by destruct Hfz.
        -- exact Hloop.
      * intros k v. rewrite Hspec, lookup_delete_Some.
        split.
        -- intros [[Hk0k Hk] Himp]. split; [done|].
           intros [Heq|Hrest]%elem_of_cons; [by inversion Heq; subst|auto].
        -- intros [Hk Himp].
           assert (k0 ≠ k) as Hk0k.
           { intros <-. apply Hfz. rewrite Hsc in Hk. inversion Hk; subst.
             apply Himp. by left. }
           split; [done|]. intros Hrest. apply Himp. by right.
Qed.

(** The loop over the items of the scope itself, in any order. *)
Lemma filter_loop_permutation ignore (sc : scope) items :
  items ≡ₚ map_to_list sc →
  filter_loop ignore items sc = Ok (filter (freezable ignore) sc).
Proof.
  intros Hperm.
  destruct (filter_loop_lookup ignore items sc) as (sc' & Hloop & Hspec).
  - rewrite Hperm. apply NoDup_fst_map_to_list.
  - intros k v Hkv. rewrite Hperm in Hkv. by apply elem_of_map_to_list.
  - rewrite Hloop. f_equal. apply map_eq. intros k. apply option_eq. intros v.
    rewrite Hspec, map_lookup_filter_Some. split.
    + intros [Hk Himp]. split; [done|]. apply Himp. rewrite Hperm.
      by apply elem_of_map_to_list.
    + intros [Hk Hfz]. done.
Qed.

(** C7.  Whatever the order in which the items of the scope are examined,
    the loop ends without an error in the scope restricted to the entries
    whose value is an instance of one of the eight allow-listed classes
    and whose key is not in [ignore]. *)
Theorem filter_scope_exact (ignore : list string) (sc : scope)
    (items : list (string * value)) :
  items ≡ₚ map_to_list sc →
  filter_loop ignore items sc = Ok (filter (freezable ignore) sc) ∧
  filter_scope ignore sc = filter_loop ignore items sc ∧
  (∀ k v, filter (freezable ignore) sc !! k = Some v ↔
          sc !! k = Some v ∧
          (∃ b, b ∈ [TInt; TFloat; TComplex; TStr; TTuple; TBytes; TBool;
                     TNoneType] ∧ issubclass (type_of v) b = true) ∧
          k ∉ ignore).
Proof.
  intros Hperm.
  split; [by apply filter_loop_permutation|].
  split.
  { unfold filter_scope. by rewrite !filter_loop_permutation. }
  intros k v. rewrite map_lookup_filter_Some. unfold freezable.
  cbn [fst snd]. by rewrite isinstance_spec.
Qed.

Lemma filter_scope_exact_witness :
  reverse (map_to_list ({[ "N" := VInt 3; "S" := VStr "x";
                           "L" := VObject (Builtin TList) 12%N ]} : scope))
  ≡ₚ map_to_list ({[ "N" := VInt 3; "S" := VStr "x";
                     "L" := VObject (Builtin TList) 12%N ]} : scope) ∧
  filter_loop ["S"]
    (reverse (map_to_list ({[ "N" := VInt 3; "S" := VStr "x";
                              "L" := VObject (Builtin TList) 12%N ]} : scope)))
    {[ "N" := VInt 3; "S" := VStr "x"; "L" := VObject (Builtin TList) 12%N ]}
  = Ok (filter (freezable ["S"])
          ({[ "N" := VInt 3; "S" := VStr "x";
              "L" := VObject (Builtin TList) 12%N ]} : scope)).
Proof.
  split; [apply reverse_Permutation|].
  apply (filter_scope_exact ["S"] _ _ (reverse_Permutation _)).
Defined.

(** C10.  The test is [isinstance]: a binding whose value is an instance
    of a strict subclass of an allow-listed class, under a name that is not
    ignored, is still in the scope after the loop; a read of the name is
    then replaced by a literal node carrying the value, and so is every
    read of it in a tree that does not write the name. *)
Theorem subclass_instance_is_frozen (ignore : list string) (sc : scope)
    (k : string) (v : value) (b : builtin) (body : node) :
  sc !! k = Some v →
  b ∈ _constantTypes →
  strict_subclass (type_of v) b = true →
  k ∉ ignore →
  ∃ sc' : scope,
    filter_scope ignore sc = Ok sc' ∧
    sc' !! k = Some v ∧
    visit (Name k Load) sc' = (Some (Constant v ANone), sc') ∧
    (writes k body = 0 → from_option (reads k) 0 (visit body sc').1 = 0).
Proof.
  intros Hk Hb Hsub Hig.
  assert (issubclass (type_of v) b = true) as Hinst.
  { destruct (type_of v) as [a|name bases]; [|done].
    cbn [strict_subclass] in Hsub. by apply andb_prop in Hsub as [_ ?]. }
  exists (filter (freezable ignore) sc).
  assert (filter (freezable ignore) sc !! k = Some v) as Hkept.
  { apply map_lookup_filter_Some. split; [done|]. split; [|done].
    cbn [snd]. apply isinstance_spec. by exists b. }
  split; [by apply filter_loop_permutation|].
  split; [done|]. split.
  - simpl. unfold visit_Name. by rewrite Hkept.
  - intros Hw. destruct (visit_present k v) as [Hnode _].
    by apply Hnode.
Qed.

Lemma subclass_instance_is_frozen_witness :
  ∃ sc' : scope,
    filter_scope [] {[ "LIMIT" := a_meters ]} = Ok sc' ∧
    sc' !! "LIMIT" = Some a_meters ∧
    visit (Name "LIMIT" Load) sc' = (Some (Constant a_meters ANone), sc') ∧
    (writes "LIMIT" (Return (Name "LIMIT" Load)) = 0 →
     from_option (reads "LIMIT") 0 (visit (Return (Name "LIMIT" Load)) sc').1 = 0).
Proof.
  apply (subclass_instance_is_frozen [] {[ "LIMIT" := a_meters ]} "LIMIT"
           a_meters TInt (Return (Name "LIMIT" Load))).
  - reflexivity.
  - unfold _constantTypes. apply list_elem_of_here.
  - reflexivity.
  - apply not_elem_of_nil.
Defined.

(** ** Failures of source retrieval and parsing *)

(** Lines 63-96 never end in a [FreezeError]. *)
Lemma capture_block_never_FreezeError h fnc eg depth callers e :
  capture_block h fnc eg depth callers = Raise e → is_FreezeError e = false.
Proof.
  unfold capture_block.
  destruct (try_suite h fnc eg depth callers) as [[] [x|error]];
    try (intros [= <-]; done).
  unfold is_Exception. destruct error as [[] arg]; intros [= <-]; done.
Qed.

(** When the source cannot be retrieved, [frame] is not bound yet and
    [del frame] raises. *)
Lemma capture_block_without_source h fnc eg depth callers x :
  getsource h fnc = Raise x →
  capture_block h fnc eg depth callers = raise UnboundLocalError "frame".
Proof.
  intros Hsrc. unfold capture_block, try_suite. rewrite Hsrc. done.
Qed.

(** The same when the source is retrieved and does not parse. *)
Lemma capture_block_without_parse h fnc eg depth callers src x :
  getsource h fnc = Ok src →
  parse_source h src = Raise x →
  capture_block h fnc eg depth callers = raise UnboundLocalError "frame".
Proof.
  intros Hsrc Hparse. unfold capture_block, try_suite.
  rewrite Hsrc, Hparse. done.
Qed.

(** When [frame] is bound and the suite fails with an [Exception], the
    handler fails in turn on the unbound [e]. *)
Lemma capture_block_handler h fnc eg depth callers error :
  try_suite h fnc eg depth callers = (true, Raise error) →
  is_Exception error = true →
  capture_block h fnc eg depth callers = raise UnboundLocalError "e".
Proof.
  intros Htry Hexn. unfold capture_block. rewrite Htry, Hexn. done.
Qed.

(** C3.  For a function whose source the interpreter cannot retrieve, and
    for one whose source it retrieves and cannot parse, the call ends in an
    [UnboundLocalError] for the local [frame]; no [FreezeError] is
    raised. *)
Theorem source_failure_is_not_wrapped :
  returned (Freeze sourceless_host [module_frame power_globals]
              (Target (ObjFunction power_fnc)) false ∅ [] 0)
  = raise UnboundLocalError "frame" ∧
  returned (Freeze unparsable_host [module_frame power_globals]
              (Target (ObjFunction power_fnc)) false ∅ [] 0)
  = raise UnboundLocalError "frame".
Proof.
  split.
  - unfold Freeze. cbn [is_function_or_type negb].
    by rewrite (capture_block_without_source _ _ _ _ _
                  (Exn OSError "could not get source code")).
  - unfold Freeze. cbn [is_function_or_type negb].
    by rewrite (capture_block_without_parse _ _ _ _ _ method_src
                  (Exn IndentationError "unexpected indent")).
Qed.

(** ** Class targets *)

(** Executing a class statement without decorators binds the name to an
    object that has no [__code__]: unless the name is one of the local
    variables of [Freeze], line 158 cannot return. *)
Lemma resynthesize_class_raises h own fnc s name bases body :
  isNotAssign s = true →
  name ∉ Freeze_varnames →
  ∃ e, resynthesize h own fnc s (ClassDef name bases body [])
         [ClassDef name bases body []] = Raise e.
Proof.
  intros Hs Hname. unfold resynthesize, exec_module. rewrite Hs.
  destruct (compile h _) as [[]|e] eqn:Hc; [|by exists e].
  cbn [mbind outcome_bind exec_body].
  unfold exec_stmt, ClassDef.
  cbn [String.eqb Ascii.eqb Bool.eqb assoc FNodes fmap list_fmap].
  destruct (evaluate h FreezerGlobals _ _) as [[]|e] eqn:He; [|by exists e].
  cbn [mbind outcome_bind exec_body]. unfold node_name, getattr.
  cbn [node_fields assoc String.eqb Ascii.eqb Bool.eqb mbind outcome_bind].
  unfold locals_getitem. rewrite bool_decide_eq_false_2 by done.
  rewrite lookup_union_l' by (cbn; rewrite lookup_insert_eq; eauto).
  cbn [list_to_map foldr uncurry fst snd].
  rewrite lookup_insert_eq. cbn [mbind outcome_bind get_code cls_code].
  eauto.
Qed.

(** C4.  [@Freeze class Box: size = N] with [N = 3]: the class statement is
    rebuilt and executed, and reading [__code__] of the new class raises an
    [AttributeError]; nothing is returned. *)
Theorem class_target_raises :
  returned (Freeze (simple_host box_src [box_def (Name "N" Load) [Name "Freeze" Load]])
              [module_frame power_globals] (Target (ObjClass box_cls))
              false ∅ [] 0)
  = raise AttributeError "type object 'Box' has no attribute '__code__'".
Proof. by vm_compute. Qed.

(** ** The decorator list *)

(** The second loop keeps nothing but names and calls: a decorator of any
    other form is never in [newDecoList]. *)
Lemma keep_others_names_and_calls _self decos :
  ∀ i kept, keep_others _self i decos = Ok kept →
    ∀ j, j ∈ kept →
      ∃ deco, decos !! (j - i)%nat = Some deco ∧ (i ≤ j)%nat ∧
              is_name_or_call deco = true.
Proof.
  induction decos as [|deco rest IH]; intros i kept Hk j Hj.
  - injection Hk as <-. by apply elem_of_nil in Hj.
  - cbn [keep_others] in Hk.
    destruct (match deco with
              | INode (Name id _) =>
                  s ← read_local "_self" _self; Ok (negb (String.eqb id s))
              | INode (Generic cls _ as call) =>
                  if String.eqb cls "Call" then
                    func ← getattr call "func";
                    id ← node_id func;
                    s ← read_local "_self" _self;
                    Ok (negb (String.eqb id s))
                  else Ok false
              | _ => Ok false
              end) as [keep|e] eqn:Hkeep; cbn [mbind outcome_bind] in Hk; [|done].
    destruct (keep_others _self (S i) rest) as [kept'|e] eqn:Hrest;
      cbn [mbind outcome_bind] in Hk; [|done].
    injection Hk as <-.
    assert (j ∈ kept' → ∃ deco0, (deco :: rest) !! (j - i)%nat = Some deco0 ∧
                                  (i ≤ j)%nat ∧ is_name_or_call deco0 = true)
      as Hold.
    { intros Hin. destruct (IH _ _ Hrest j Hin) as (d & Hd & Hle & Hnc).
      exists d. split; [|split; [lia|done]].
      replace (j - i)%nat with (S (j - S i)) by lia. done. }
    destruct keep; [|by apply Hold].
    apply elem_of_cons in Hj as [->|Hin]; [|by apply Hold].
    exists deco. rewrite Nat.sub_diag. split; [done|]. split; [done|].
    destruct deco as [[| | |cls fields]|a]; try done.
    cbn [is_name_or_call]. by destruct (String.eqb cls "Call").
Qed.

(** C5.  [@functools.cache] above [@Freeze]: the decorator list of the
    definition that is compiled is empty.  The entry [functools.cache], an
    attribute reference, is neither a name nor a call and is dropped with
    the entry of [Freeze]. *)
Theorem attribute_decorator_is_dropped :
  decorators_of (power_def (Name "N" Load) cached_decorators)
  = Ok (INode <$> cached_decorators) ∧
  strip_block cached_globals (power_def (Name "N" Load) cached_decorators)
  = Ok (Stripped true (INode (power_def (Name "N" Load) cached_decorators)) []) ∧
  returned (Freeze (simple_host cached_src [power_def (Name "N" Load) cached_decorators])
              [module_frame cached_globals] (Target (ObjFunction power_fnc))
              false ∅ [] 0)
  = Ok (Frozen (ObjFunction
                  (Function 7 "power"
                     (Compiled (power_def (Constant (VInt 3) ANone) []))
                     (ModuleGlobals "__main__")))).
Proof. by vm_compute. Qed.

(** ** Re-synthesis *)

(** Line 158 on a function: what is returned is the function that was
    given, with a code object that has as many free variables as the one
    it had. *)
Lemma resynthesize_definition (h : Host) (own : gmap string pyobj)
    (f : function_obj) (s : stripped) (newFnc : node) (astMod : list node)
    (o : pyobj) :
  isNotAssign s = true →
  resynthesize h own (ObjFunction f) s newFnc astMod = Ok o →
  ∃ bound name new co,
    exec_module h FreezerGlobals own astMod = Ok bound ∧
    node_name newFnc = Ok name ∧
    locals_getitem own bound name = Ok new ∧
    get_code h new = Ok co ∧
    co_freevars co = co_freevars (fn_code f) ∧
    o = ObjFunction (Function (fn_addr f) (fn_qualname f) co (fn_globals f)).
Proof.
  intros Hs. unfold resynthesize. rewrite Hs.
  destruct (exec_module h FreezerGlobals own astMod) as [bound|e];
    cbn [mbind outcome_bind]; [|done].
  destruct (node_name newFnc) as [name|e]; cbn [mbind outcome_bind]; [|done].
  destruct (locals_getitem own bound name) as [new|e] eqn:Hnew;
    cbn [mbind outcome_bind]; [|done].
  destruct (get_code h new) as [co|e] eqn:Hco; cbn [mbind outcome_bind]; [|done].
  cbn [set_code].
  destruct (Nat.eqb (co_freevars co) (co_freevars (fn_code f))) eqn:Hfree;
    [|done].
  intros [= <-]. apply Nat.eqb_eq in Hfree. by exists bound, name, new, co.
Qed.

(** C6.  The rebuilt module is executed in the namespace of [Freeze], not
    in the one of the target.  [g = Freeze(lambda x: scale(x) + N)] in the
    module [__main__]: the callable returned is the function the executed
    module made; it still reads the global [scale], and its globals are
    those of the module of [Freeze], not those of the module where the
    lambda was written. *)
Theorem assigned_lambda_gets_freezer_globals :
  ∃ f' body,
    returned (Freeze (simple_host direct_src [wrapped_stmt "Freeze"])
                [module_frame direct_globals]
                (Target (ObjFunction wrapped_fnc)) false ∅ [] 0)
    = Ok (Frozen (ObjFunction f')) ∧
    fn_code f' = Compiled body ∧
    reads "scale" body = 1 ∧
    fn_globals wrapped_fnc = ModuleGlobals "__main__" ∧
    fn_globals f' = FreezerGlobals ∧
    fn_globals f' ≠ fn_globals wrapped_fnc.
Proof.
  eexists _, _. split; [by vm_compute|]. cbn [fn_code fn_globals].
  split; [done|]. split; [by vm_compute|]. done.
Qed.

(** ** The self-reference pattern *)

(** C8, as the code has it.  When the first statement of the source has no
    decorator list and is not an assignment, the [AttributeError] of the
    lookup of [decorator_list] is what the call raises. *)
Theorem missing_decorator_list_propagates (h : Host) (callers : list frame)
    (fnc : pyobj) (enforce_globals : bool) (overwrite_with : scope)
    (ignore : list string) (depth : Z) (astMod : list node) (astTgt : node)
    (sc : scope) :
  is_function_or_type fnc = true →
  capture_block h fnc enforce_globals depth callers = Ok (astMod, astTgt, sc) →
  assoc "decorator_list" (node_fields astTgt) = None →
  node_class astTgt ≠ "Assign" →
  returned (Freeze h callers (Target fnc) enforce_globals overwrite_with
              ignore depth)
  = Raise (Exn AttributeError
             ("'" ++ node_class astTgt
              ++ "' object has no attribute 'decorator_list'")).
Proof.
  intros Hfnc Hcap Hnone Hcls. unfold Freeze. rewrite Hfnc, Hcap.
  cbn [negb]. unfold strip_block, strip_try, decorators_of, getattr.
  rewrite Hnone. cbn [mbind outcome_bind no_attribute raise is_AttributeError exn_type].
  apply String.eqb_neq in Hcls. by rewrite Hcls.
Qed.

Lemma missing_decorator_list_propagates_witness :
  capture_block (simple_host applied_src [applied_stmt])
    (ObjFunction wrapped_fnc) false 0 applied_callers
  = Ok ([applied_stmt], applied_stmt,
        capture_scope false
          (Frame applied_globals {[ "f" := VObject (Builtin TFunction) 9%N ]})) ∧
  node_class applied_stmt = "Expr" ∧
  returned (Freeze (simple_host applied_src [applied_stmt]) applied_callers
              (Target (ObjFunction wrapped_fnc)) false ∅ [] 0)
  = Raise (Exn AttributeError "'Expr' object has no attribute 'decorator_list'").
Proof.
  split; [reflexivity|]. split; [reflexivity|].
  apply (missing_decorator_list_propagates (simple_host applied_src [applied_stmt])
           applied_callers (ObjFunction wrapped_fnc) false ∅ [] 0
           [applied_stmt] applied_stmt
           (capture_scope false
              (Frame applied_globals {[ "f" := VObject (Builtin TFunction) 9%N ]})));
    [reflexivity | reflexivity | reflexivity | discriminate].
Defined.

(** C8 as stated fails.  [g = other(lambda x: scale(x) + N)], with [other]
    a function that is not [Freeze]: the statement has no decorator list
    and is not an assignment of a call to [Freeze], and the call returns a
    callable instead of raising. *)
Lemma call_to_another_function_is_accepted :
  getattr (wrapped_stmt "other") "decorator_list"
  = no_attribute "Assign" "decorator_list" ∧
  assigns_call_to_Freeze (capture_scope false (module_frame wrapped_globals))
    (wrapped_stmt "other") = false ∧
  (∃ f', returned (Freeze (simple_host wrapped_src [wrapped_stmt "other"])
                     [module_frame wrapped_globals]
                     (Target (ObjFunction wrapped_fnc)) false ∅ [] 0)
         = Ok (Frozen (ObjFunction f'))) ∧
  ¬ (∃ e, returned (Freeze (simple_host wrapped_src [wrapped_stmt "other"])
                      [module_frame wrapped_globals]
                      (Target (ObjFunction wrapped_fnc)) false ∅ [] 0)
          = Raise e).
Proof.
  split; [done|]. split; [by vm_compute|].
  assert (∃ f', returned (Freeze (simple_host wrapped_src [wrapped_stmt "other"])
                     [module_frame wrapped_globals]
                     (Target (ObjFunction wrapped_fnc)) false ∅ [] 0)
         = Ok (Frozen (ObjFunction f'))) as [f' Hf'].
  { eexists. by vm_compute. }
  split; [by exists f'|]. intros [e He]. by rewrite Hf' in He.
Qed.

(** [g = lambda x: scale(x) + N], frozen later by [Freeze(g)]: the value of
    the assignment is a lambda, whose [args] is no list, and the call ends
    in a [TypeError]. *)
Example assigned_lambda_raises_TypeError :
  returned (Freeze (simple_host "g = lambda x: scale(x) + N"
                      [Assign [Name "g" Store] (wrapped_lambda (Name "N" Load))])
              [module_frame wrapped_globals] (Target (ObjFunction wrapped_fnc))
              false ∅ [] 0)
  = raise TypeError "object is not subscriptable".
Proof. by vm_compute. Qed.

(** ** The option [overwrite_with] *)

(** Two sets of local names that agree on every name but [k] make no
    difference to a statement that does not read [k]. *)
Lemma exec_stmt_agree h k ns (l1 l2 : gmap string pyobj) stmt :
  ignores_local h k →
  (∀ j, j ≠ k → l1 !! j = l2 !! j) →
  exec_stmt h ns l1 stmt = exec_stmt h ns l2 stmt.
Proof.
  intros Hh Hl.
  assert (∀ n, evaluate h ns l1 n = evaluate h ns l2 n) as Hev
    by (intros n; by apply Hh).
  assert (∀ n, exec_host h ns l1 n = exec_host h ns l2 n) as Hex
    by (intros n; by apply Hh).
  unfold exec_stmt. repeat case_match; rewrite ?Hev, ?Hex; done.
Qed.

Lemma exec_body_agree h k ns (own1 own2 : gmap string pyobj) body :
  ignores_local h k →
  (∀ j, j ≠ k → own1 !! j = own2 !! j) →
  ∀ bound, exec_body h ns own1 body bound = exec_body h ns own2 body bound.
Proof.
  intros Hh Hown. induction body as [|stmt rest IH]; intros bound; [done|].
  cbn [exec_body].
  rewrite (exec_stmt_agree h k ns (bound ∪ own1) (bound ∪ own2)); [|done|].
  - destruct (exec_stmt h ns (bound ∪ own2) stmt) as [bs|e];
      cbn [mbind outcome_bind]; [apply IH|done].
  - intros j Hj. by rewrite !lookup_union, Hown.
Qed.

(** Lines 155-160 do not depend on a local variable of [Freeze] that the
    executed module does not read and that is not the name read back. *)
Lemma resynthesize_agree h k (own1 own2 : gmap string pyobj) fnc s newFnc astMod :
  ignores_local h k →
  (∀ j, j ≠ k → own1 !! j = own2 !! j) →
  read_back s newFnc astMod ≠ Ok k →
  resynthesize h own1 fnc s newFnc astMod
  = resynthesize h own2 fnc s newFnc astMod.
Proof.
  intros Hh Hown Hk. unfold resynthesize, exec_module, read_back in *.
  destruct (compile h astMod) as [[]|e]; cbn [mbind outcome_bind]; [|done].
  rewrite (exec_body_agree h k _ own1 own2) by done.
  destruct (exec_body h FreezerGlobals own2 astMod ∅) as [bound|e];
    cbn [mbind outcome_bind]; [|done].
  assert (∀ name, name ≠ k →
            locals_getitem own1 bound name = locals_getitem own2 bound name)
    as Hget.
  { intros name Hne. unfold locals_getitem. by rewrite Hown. }
  destruct (isNotAssign s).
  - destruct (node_name newFnc) as [name|e]; cbn [mbind outcome_bind]; [|done].
    rewrite Hget; [done|]. by intros ->.
  - destruct astMod as [|stmt rest]; cbn [mbind outcome_bind] in *; [done|].
    destruct (first_target_id stmt) as [id|e]; cbn [mbind outcome_bind]; [|done].
    apply Hget. by intros ->.
Qed.

Lemma Freeze_overwrite_with h callers fnc enforce_globals ow1 ow2 ignore depth :
  ignores_local h "overwrite_with" →
  looked_up h callers fnc enforce_globals ignore depth ≠ Some "overwrite_with" →
  Freeze h callers (Target fnc) enforce_globals ow1 ignore depth
  = Freeze h callers (Target fnc) enforce_globals ow2 ignore depth.
Proof.
  intros Hh. unfold Freeze, looked_up.
  destruct (negb (is_function_or_type fnc)); [done|].
  destruct (capture_block h fnc enforce_globals depth callers)
    as [[[astMod astTgt] sc]|e]; [|done].
  destruct (strip_block sc astTgt) as [s|e]; [|done].
  destruct (filter_scope ignore sc) as [filtered|e]; [|done].
  intros Hk. f_equal.
  destruct (rebuild astMod astTgt s filtered) as [[[newFnc astMod'] sc']|e];
    cbn [mbind outcome_bind]; [|done].
  rewrite (resynthesize_agree h "overwrite_with"
             (Freeze_locals h fnc enforce_globals ow1 ignore depth sc astTgt s
                filtered newFnc astMod' sc')
             (Freeze_locals h fnc enforce_globals ow2 ignore depth sc astTgt s
                filtered newFnc astMod' sc')); [done|done| |].
  - intros j Hj. unfold Freeze_locals.
    by rewrite !(lookup_insert_ne _ "overwrite_with") by done.
  - destruct (read_back s newFnc astMod') as [name|e]; [|done].
    intros [= ->]. done.
Qed.




(** * Further properties of the walk *)

(** ** The scope after the walk *)

Lemma visit_scope k :
  (∀ n (d : scope),
     (visit n d).2 !! k = if Nat.eqb (writes k n) 0 then d !! k else None) ∧
  (∀ f (d : scope),
     (visit_field f d).2 !! k
     = if Nat.eqb (writes_field k f) 0 then d !! k else None).
Proof.
  apply node_field_ind.
  - intros id ctx d. simpl. unfold visit_Name.
    destruct (String.eqb id k) eqn:Hb.
    + apply String.eqb_eq in Hb as ->.
      destruct (d !! k) as [v|] eqn:Hk; destruct ctx; simpl;
        rewrite ?lookup_delete_eq; done.
    + assert (id ≠ k) as Hne by by apply String.eqb_neq.
      destruct (d !! id) as [v|]; destruct ctx; simpl;
        rewrite ?lookup_delete_ne by done; done.
  - done.
  - done.
  - intros cls fields IH d. rewrite visit_Generic, writes_Generic.
    assert ((visit_fields fields d).2 !! k
            = if Nat.eqb (writes_fields k fields) 0 then d !! k else None) as H.
    { revert d. induction IH as [|[name f] rest Hf _ IHrest]; intros d.
      - done.
      - rewrite visit_fields_cons. cbn [snd]. rewrite IHrest.
        simpl in Hf. rewrite Hf. cbn [writes_fields foldr snd].
        fold (writes_fields k rest).
        destruct (writes_field k f), (writes_fields k rest); done. }
    by destruct (visit_fields fields d).
  - intros n IH d. rewrite visit_field_FNode. apply IH.
  - intros items IH d. rewrite visit_field_FList, writes_field_FList.
    assert ((visit_items items d).2 !! k
            = if Nat.eqb (writes_items k items) 0 then d !! k else None) as H.
    { revert d. induction IH as [|[n|a] rest Hf _ IHrest]; intros d.
      - done.
      - rewrite visit_items_cons_node. cbn [snd]. rewrite IHrest, Hf.
        cbn [writes_items foldr writes_item]. fold (writes_items k rest).
        destruct (writes k n), (writes_items k rest); done.
      - rewrite visit_items_cons_atom. cbn [snd]. by rewrite IHrest. }
    by destruct (visit_items items d).
  - done.
Qed.

(** X1.  After the walk the scope holds exactly the bindings it held
    before under the names the tree never writes: a name written anywhere
    in the tree is gone, every other binding is there with its value. *)
Theorem walk_scope_exact (n : node) (d : scope) (k : string) :
  (visit n d).2 !! k = if Nat.eqb (writes k n) 0 then d !! k else None.
Proof. destruct (visit_scope k) as [Hnode _]. apply Hnode. Qed.

(** ** Walking a walked tree *)

Lemma globals_in_Generic cls fields :
  globals_in (Generic cls fields) = globals_in_fields fields.
Proof.
  simpl. induction fields as [|[name f] rest IH]; simpl; [done|].
  by rewrite IH.
Qed.

Lemma globals_in_field_FList items :
  globals_in_field (FList items) = globals_in_items items.
Proof.
  simpl. induction items as [|[n|a] rest IH]; simpl; [done| |done].
  by rewrite IH.
Qed.

Lemma visit_twice :
  (∀ n (d : scope),
     match (visit n d).1 with
     | Some n' => visit n' d = (Some n', (visit n d).2)
     | None => (visit n d).2 = d
     end) ∧
  (∀ f (d : scope),
     match (visit_field f d).1 with
     | Some f' => visit_field f' d = (Some f', (visit_field f d).2)
     | None => (visit_field f d).2 = d
     end).
Proof.
  apply node_field_ind.
  - intros id ctx d. simpl. unfold visit_Name.
    destruct (d !! id) as [v|] eqn:Hid; [destruct ctx|]; simpl;
      unfold visit_Name; rewrite ?Hid; done.
  - done.
  - done.
  - intros cls fields IH d. rewrite visit_Generic.
    assert (visit_fields (visit_fields fields d).1 d = visit_fields fields d) as H.
    { revert d. induction IH as [|[name f] rest Hf _ IHrest]; intros d.
      - done.
      - rewrite visit_fields_cons. simpl in Hf. specialize (Hf d).
        destruct (visit_field f d) as [[f'|] d1]; cbn [fst snd] in *.
        + rewrite visit_fields_cons, Hf. cbn [fst snd]. by rewrite IHrest.
        + subst d1. rewrite IHrest. by destruct (visit_fields rest d). }
    destruct (visit_fields fields d) as [fields' d'] eqn:Hv. cbn [fst snd] in *.
    by rewrite visit_Generic, H.
  - intros n IH d. rewrite visit_field_FNode. cbn [fst snd]. specialize (IH d).
    destruct (visit n d) as [[n'|] d1]; cbn [fst snd fmap option_fmap option_map] in *.
    + by rewrite visit_field_FNode, IH.
    + done.
  - intros items IH d. rewrite visit_field_FList.
    assert (visit_items (visit_items items d).1 d = visit_items items d) as H.
    { revert d. induction IH as [|[n|a] rest Hf _ IHrest]; intros d.
      - done.
      - rewrite visit_items_cons_node. specialize (Hf d).
        destruct (visit n d) as [[n'|] d1]; cbn [fst snd] in *.
        + rewrite visit_items_cons_node, Hf. cbn [fst snd]. by rewrite IHrest.
        + subst d1. rewrite IHrest. by destruct (visit_items rest d).
      - rewrite visit_items_cons_atom. cbn [fst]. rewrite visit_items_cons_atom.
        by rewrite IHrest. }
    destruct (visit_items items d) as [items' d'] eqn:Hv. cbn [fst snd] in *.
    by rewrite visit_field_FList, H.
  - done.
Qed.

(** X2.  The walk is idempotent: walking the tree it produced, with the
    scope it started from, produces the same tree and leaves the same
    scope. *)
Theorem walk_idempotent (n n' : node) (d d' : scope) :
  visit n d = (Some n', d') → visit n' d = (Some n', d').
Proof.
  intros Hv. destruct visit_twice as [Hnode _]. specialize (Hnode n d).
  by rewrite Hv in Hnode.
Qed.

Lemma walk_idempotent_witness :
  visit (read_write_def read_write_body [])
        ({[ "X" := VInt 5 ]} : scope)
  = (Some (read_write_def read_write_frozen []), ∅) ∧
  visit (read_write_def read_write_frozen [])
        ({[ "X" := VInt 5 ]} : scope)
  = (Some (read_write_def read_write_frozen []), ∅).
Proof.
  assert (visit (read_write_def read_write_body [])
                ({[ "X" := VInt 5 ]} : scope)
          = (Some (read_write_def read_write_frozen []), ∅)) as H
    by (by vm_compute).
  split; [exact H|]. exact (walk_idempotent _ _ _ _ H).
Defined.

Lemma visit_counts k :
  (∀ n (d : scope),
     (from_option (reads k) 0 (visit n d).1 ≤ reads k n)%nat ∧
     from_option (writes k) 0 (visit n d).1 = writes k n ∧
     from_option globals_in 0 (visit n d).1 = 0) ∧
  (∀ f (d : scope),
     (from_option (reads_field k) 0 (visit_field f d).1 ≤ reads_field k f)%nat ∧
     from_option (writes_field k) 0 (visit_field f d).1 = writes_field k f ∧
     from_option globals_in_field 0 (visit_field f d).1 = 0).
Proof.
  apply node_field_ind.
  - intros id ctx d. simpl. unfold visit_Name.
    destruct (d !! id) as [v|]; destruct ctx; simpl;
      destruct (String.eqb id k); repeat split; lia.
  - intros v kind d. simpl. repeat split; lia.
  - intros names d. simpl. repeat split; lia.
  - intros cls fields IH d.
    rewrite visit_Generic, reads_Generic, writes_Generic.
    assert ((reads_fields k (visit_fields fields d).1 ≤ reads_fields k fields)%nat ∧
            writes_fields k (visit_fields fields d).1 = writes_fields k fields ∧
            globals_in_fields (visit_fields fields d).1 = 0) as (H1 & H2 & H3).
    { revert d. induction IH as [|[name f] rest Hf _ IHrest]; intros d.
      - done.
      - rewrite visit_fields_cons. simpl in Hf.
        destruct (Hf d) as (Hr & Hw & Hg).
        destruct (IHrest (visit_field f d).2) as (Hr' & Hw' & Hg').
        cbn [fst]. unfold reads_fields, writes_fields, globals_in_fields in *.
        destruct (visit_field f d).1 as [f'|]; simpl in *;
          repeat split; lia. }
    destruct (visit_fields fields d) as [fields' d']. cbn [fst snd from_option] in *.
    rewrite reads_Generic, writes_Generic, globals_in_Generic. done.
  - intros n IH d. rewrite visit_field_FNode. cbn [fst].
    destruct (IH d) as (Hr & Hw & Hg).
    destruct (visit n d).1; simpl in *; done.
  - intros items IH d.
    rewrite visit_field_FList, reads_field_FList, writes_field_FList.
    assert ((reads_items k (visit_items items d).1 ≤ reads_items k items)%nat ∧
            writes_items k (visit_items items d).1 = writes_items k items ∧
            globals_in_items (visit_items items d).1 = 0) as (H1 & H2 & H3).
    { revert d. induction IH as [|[n|a] rest Hf _ IHrest]; intros d.
      - done.
      - rewrite visit_items_cons_node.
        destruct (Hf d) as (Hr & Hw & Hg).
        destruct (IHrest (visit n d).2) as (Hr' & Hw' & Hg').
        cbn [fst]. unfold reads_items, writes_items, globals_in_items in *.
        destruct (visit n d).1 as [n'|]; simpl in *; repeat split; lia.
      - rewrite visit_items_cons_atom.
        destruct (IHrest d) as (Hr' & Hw' & Hg').
        cbn [fst]. unfold reads_items, writes_items, globals_in_items in *.
        simpl in *. repeat split; lia. }
    destruct (visit_items items d) as [items' d']. cbn [fst snd from_option] in *.
    rewrite reads_field_FList, writes_field_FList, globals_in_field_FList. done.
  - intros a d. simpl. repeat split; lia.
Qed.

(** X3.  Whatever the scope, the tree the walk returns holds no [global]
    statement, writes every name exactly where the tree before did, and
    reads no name more often than the tree before: the walk removes
    [global] statements and reads, and adds or moves no name. *)
Theorem walk_only_removes (n : node) (d : scope) (k : string) :
  from_option globals_in 0 (visit n d).1 = 0 ∧
  from_option (writes k) 0 (visit n d).1 = writes k n ∧
  (from_option (reads k) 0 (visit n d).1 ≤ reads k n)%nat.
Proof.
  destruct (visit_counts k) as [Hnode _].
  destruct (Hnode n d) as (Hr & Hw & Hg). done.
Qed.

(** * Further properties of filtering and substitution together *)

(** X4.  A name bound to anything but a constant (a list, a dict, an
    object), a name in [ignore], and a name the frame does not bind are
    never inlined: the filtering loop leaves no entry for the name, and a
    tree walked with the filtered scope keeps every read of it. *)
Theorem not_freezable_is_never_inlined (ignore : list string) (sc : scope)
    (k : string) (body : node) :
  (sc !! k = None ∨ k ∈ ignore ∨
   ∃ v, sc !! k = Some v ∧ isinstance v _constantTypes = false) →
  ∃ sc' : scope,
    filter_scope ignore sc = Ok sc' ∧
    sc' !! k = None ∧
    from_option (reads k) 0 (visit body sc').1 = reads k body.
Proof.
  intros Hk. exists (filter (freezable ignore) sc).
  split; [by apply filter_loop_permutation|].
  assert (filter (freezable ignore) sc !! k = None) as Hnone.
  { apply map_lookup_filter_None. destruct Hk as [Hk|[Hk|(v & Hk & Hv)]].
    - by left.
    - right. intros v _ [_ Hig]. by apply Hig.
    - right. intros w Hw [Hty _]. cbn [snd] in Hty.
      rewrite Hk in Hw. injection Hw as <-. by rewrite Hv in Hty. }
  split; [done|]. destruct (visit_absent k) as [Hnode _]. by apply Hnode.
Qed.

Lemma not_freezable_is_never_inlined_witness :
  ∃ sc' : scope,
    filter_scope ["N"] {[ "N" := VInt 3; "L" := VObject (Builtin TList) 12%N ]}
    = Ok sc' ∧
    sc' !! "N" = None ∧
    from_option (reads "N") 0
      (visit (power_def (Name "N" Load) []) sc').1
    = reads "N" (power_def (Name "N" Load) []).
Proof.
  apply (not_freezable_is_never_inlined ["N"]
           {[ "N" := VInt 3; "L" := VObject (Builtin TList) 12%N ]} "N"
           (power_def (Name "N" Load) [])).
  right. left. apply list_elem_of_here.
Defined.

(** X5.  A name bound to a constant, not in [ignore], that the tree never
    writes is inlined everywhere: a tree walked with the filtered scope
    reads the name nowhere, and the binding is still in the scope after
    the walk. *)
Theorem unwritten_constant_is_inlined_everywhere (ignore : list string)
    (sc : scope) (k : string) (v : value) (body : node) :
  sc !! k = Some v →
  isinstance v _constantTypes = true →
  k ∉ ignore →
  writes k body = 0 →
  ∃ sc' : scope,
    filter_scope ignore sc = Ok sc' ∧
    from_option (reads k) 0 (visit body sc').1 = 0 ∧
    (visit body sc').2 !! k = Some v.
Proof.
  intros Hk Hty Hig Hw. exists (filter (freezable ignore) sc).
  split; [by apply filter_loop_permutation|].
  assert (filter (freezable ignore) sc !! k = Some v) as Hkept.
  { apply map_lookup_filter_Some. by repeat split. }
  destruct (visit_present k v) as [Hnode _].
  destruct (Hnode body _ Hkept Hw). done.
Qed.

Lemma unwritten_constant_is_inlined_everywhere_witness :
  ∃ sc' : scope,
    filter_scope [] power_globals = Ok sc' ∧
    from_option (reads "N") 0
      (visit (power_def (Name "N" Load) [Name "Freeze" Load]) sc').1 = 0 ∧
    (visit (power_def (Name "N" Load) [Name "Freeze" Load]) sc').2 !! "N"
    = Some (VInt 3).
Proof.
  apply (unwritten_constant_is_inlined_everywhere [] power_globals "N" (VInt 3)
           (power_def (Name "N" Load) [Name "Freeze" Load]));
    [reflexivity | reflexivity | apply not_elem_of_nil | reflexivity].
Defined.

(** ** Parameters and assignments *)

Lemma writes_parameters (x : string) (params : list string) :
  writes x (arguments (arg <$> params)) = 0.
Proof.
  unfold arguments. rewrite writes_Generic. unfold FNodes.
  cbn [writes_fields foldr snd]. rewrite !writes_field_FList.
  assert (writes_items x (INode <$> (arg <$> params)) = 0) as ->.
  { induction params as [|p rest IH]; [done|]. simpl in *. exact IH. }
  reflexivity.
Qed.



(** X7.  The targets of an assignment are walked before its value: for
    [x = value] with [x] in the scope, the target evicts [x] first, so the
    reads of [x] in [value] are all kept (as in [x = x + 1]) and [x] is
    not in the scope afterwards. *)
Theorem assignment_evicts_before_its_value (x : string) (v : value)
    (value : node) (d : scope) :
  d !! x = Some v →
  from_option (reads x) 0 (visit (Assign [Name x Store] value) d).1
  = reads x value ∧
  (visit (Assign [Name x Store] value) d).2 !! x = None ∧
  visit (Assign [Name x Store] value) d
  = (Some (Generic "Assign"
             (("targets", FList [INode (Name x Store)])
              :: match (visit value (delete x d)).1 with
                 | Some value' => [("value", FNode value')]
                 | None => []
                 end ++ [("type_comment", FAtom ANone)])),
     (visit value (delete x d)).2).
Proof.
  intros Hx.
  assert (visit (Assign [Name x Store] value) d
          = (Some (Generic "Assign"
                     (("targets", FList [INode (Name x Store)])
                      :: match (visit value (delete x d)).1 with
                         | Some value' => [("value", FNode value')]
                         | None => []
                         end ++ [("type_comment", FAtom ANone)])),
             (visit value (delete x d)).2)) as Hwalk.
  { unfold Assign. rewrite visit_Generic, !visit_fields_cons. unfold FNodes.
    cbn [fmap list_fmap]. rewrite visit_field_FList, visit_items_cons_node.
    cbn [visit]. unfold visit_Name. rewrite Hx. cbn [fst snd visit_items].
    rewrite visit_field_FNode. cbn [fst snd].
    destruct (visit value (delete x d)) as [[value'|] d']; reflexivity. }
  destruct (visit_absent x) as [Hnode _].
  destruct (Hnode value (delete x d) (lookup_delete_eq d x)) as [Hd Hr].
  rewrite Hwalk. cbn [fst snd from_option]. split; [|done].
  rewrite reads_Generic. cbn [reads_fields foldr snd].
  rewrite reads_field_FList. cbn [reads_items foldr reads_item reads].
  destruct (visit value (delete x d)).1 as [value'|];
    cbn [app foldr snd reads_field from_option] in *; lia.
Qed.

Lemma assignment_evicts_before_its_value_witness :
  ({[ "X" := VInt 5 ]} : scope) !! "X" = Some (VInt 5) ∧
  from_option (reads "X") 0
    (visit (Assign [Name "X" Store]
              (BinOp (Name "X" Load) "Add" (Constant (VInt 1) ANone)))
       {[ "X" := VInt 5 ]}).1
  = reads "X" (BinOp (Name "X" Load) "Add" (Constant (VInt 1) ANone)).
Proof.
  split; [reflexivity|].
  apply (assignment_evicts_before_its_value "X" (VInt 5)
           (BinOp (Name "X" Load) "Add" (Constant (VInt 1) ANone))
           {[ "X" := VInt 5 ]}).
  reflexivity.
Defined.

(** * Further properties of scope capture and filtering *)

(** X8.  Filtering composes and is idempotent: filtering with [ig1] and
    then with [ig2] is filtering once with [ig1 ++ ig2], and filtering a
    filtered scope again with the same list changes nothing.  Neither ever
    raises. *)
Theorem filter_scope_composes (ig1 ig2 : list string) (sc : scope) :
  (sc1 ← filter_scope ig1 sc; filter_scope ig2 sc1)
  = filter_scope (ig1 ++ ig2) sc ∧
  (sc1 ← filter_scope ig1 sc; filter_scope ig1 sc1) = filter_scope ig1 sc ∧
  ∃ sc', filter_scope (ig1 ++ ig2) sc = Ok sc' ∧ sc' ⊆ sc.
Proof.
  unfold filter_scope. rewrite !filter_loop_permutation by done.
  cbn [mbind outcome_bind]. rewrite !filter_loop_permutation by done.
  split; [|split].
  - f_equal. apply map_eq. intros k. apply option_eq. intros v.
    rewrite !map_lookup_filter_Some. unfold freezable. cbn [fst snd].
    rewrite elem_of_app. tauto.
  - f_equal. apply map_eq. intros k. apply option_eq. intros v.
    rewrite !map_lookup_filter_Some. tauto.
  - eexists. split; [done|]. apply map_filter_subseteq.
Qed.

(** X9.  When the two namespaces of the frame agree on every name they
    both bind (as at module level, where they are one dictionary),
    [enforce_globals] makes no difference to the captured scope; and the
    captured scope always binds exactly the names bound in either
    namespace. *)
Theorem enforce_globals_is_moot_when_namespaces_agree (fr : frame) :
  (∀ k g l, f_globals fr !! k = Some g → f_locals fr !! k = Some l → g = l) →
  capture_scope true fr = capture_scope false fr ∧
  (∀ b, dom (capture_scope b fr) = dom (f_globals fr) ∪ dom (f_locals fr)) ∧
  (f_locals fr = f_globals fr → ∀ b, capture_scope b fr = f_globals fr).
Proof.
  intros Hagree. unfold capture_scope, dict_update. split; [|split].
  - apply map_eq. intros k. rewrite !lookup_union.
    destruct (f_globals fr !! k) as [g|] eqn:Hg,
             (f_locals fr !! k) as [l|] eqn:Hl; try done.
    by rewrite (Hagree k g l Hg Hl).
  - intros b. destruct b; rewrite dom_union_L; [done|]. apply (comm_L (∪)).
  - intros -> b. destruct b; apply (idemp_L (∪)).
Qed.

Lemma enforce_globals_is_moot_when_namespaces_agree_witness :
  capture_scope true (module_frame power_globals)
  = capture_scope false (module_frame power_globals) ∧
  (∀ b, dom (capture_scope b (module_frame power_globals))
        = dom (f_globals (module_frame power_globals))
          ∪ dom (f_locals (module_frame power_globals))) ∧
  (f_locals (module_frame power_globals) = f_globals (module_frame power_globals) →
   ∀ b, capture_scope b (module_frame power_globals)
        = f_globals (module_frame power_globals)).
Proof.
  apply (enforce_globals_is_moot_when_namespaces_agree (module_frame power_globals)).
  intros k g l Hg Hl. cbn [module_frame f_globals f_locals] in Hg, Hl.
  rewrite Hg in Hl. by injection Hl.
Defined.

(** * Further properties of [Freeze] *)

(** With [depth = 1] the frame of the lambda of lines 55-58 is skipped:
    the scope captured is the one a direct call captures. *)
Lemma capture_block_through_lambda h o enforce_globals lambda_frame callers :
  capture_block h o enforce_globals 1 (lambda_frame :: callers)
  = capture_block h o enforce_globals 0 callers.
Proof.
  unfold capture_block, try_suite.
  destruct (getsource h o) as [src|e]; [|done].
  destruct (parse_source h src) as [[astMod astTgt]|e]; [|done].
  reflexivity.
Qed.



(** ** The decorator loops *)

Lemma find_self_is_Freeze sc decos s :
  find_self sc decos = Ok (Some s) →
  ∃ v, sc !! s = Some v ∧ is_Freeze v = true.
Proof.
  induction decos as [|deco rest IH]; [done|]. cbn [find_self].
  destruct deco as [[id ctx| | |cls fields]|a]; try done.
  - unfold dict_getitem. destruct (sc !! id) as [v|] eqn:Hid; [|done].
    cbn [mbind outcome_bind]. destruct (is_Freeze v) eqn:Hv; [|done].
    intros [= <-]. eauto.
  - destruct (String.eqb cls "Call"); [|done].
    destruct (getattr _ "func") as [func|e]; cbn [mbind outcome_bind]; [|done].
    destruct (node_id func) as [id|e]; cbn [mbind outcome_bind]; [|done].
    unfold dict_getitem. destruct (sc !! id) as [v|] eqn:Hid; [|done].
    cbn [mbind outcome_bind]. destruct (is_Freeze v) eqn:Hv; [|done].
    intros [= <-]. eauto.
Qed.

Lemma find_self_app sc pre decos :
  find_self sc pre = Ok None → find_self sc (pre ++ decos) = find_self sc decos.
Proof.
  induction pre as [|deco rest IH]; [done|]. cbn [find_self app].
  destruct deco as [[id ctx| | |cls fields]|a]; try done.
  - destruct (dict_getitem sc id) as [v|e]; cbn [mbind outcome_bind]; [|done].
    by destruct (is_Freeze v).
  - destruct (String.eqb cls "Call"); [|done].
    destruct (getattr _ "func") as [func|e]; cbn [mbind outcome_bind]; [|done].
    destruct (node_id func) as [id|e]; cbn [mbind outcome_bind]; [|done].
    destruct (dict_getitem sc id) as [v|e]; cbn [mbind outcome_bind]; [|done].
    by destruct (is_Freeze v).
Qed.

(** What the test of one decorator gives when [_self] is [s]. *)
Lemma keep_test s deco keep :
  match deco with
  | INode (Name id _) =>
      s' ← read_local "_self" (Some s); Ok (negb (String.eqb id s'))
  | INode (Generic cls _ as call) =>
      if String.eqb cls "Call" then
        func ← getattr call "func";
        id ← node_id func;
        s' ← read_local "_self" (Some s);
        Ok (negb (String.eqb id s'))
      else Ok false
  | _ => Ok false
  end = Ok keep →
  keep = keeps s deco.
Proof.
  destruct deco as [[id ctx| | |cls fields]|a]; cbn [keeps];
    try (by intros [= <-]).
  destruct (String.eqb cls "Call"); [|by intros [= <-]].
  unfold getattr. cbn [node_fields andb].
  destruct (assoc "func" fields) as [func|]; cbn [mbind outcome_bind]; [|done].
  destruct func as [[id ctx| | |c fs]|l|a]; cbn [node_id mbind outcome_bind];
    try done.
  by intros [= <-].
Qed.

Lemma omap_shift {A} (deco : A) rest i kept :
  Forall (λ j, S i ≤ j)%nat kept →
  omap (λ j, (deco :: rest) !! (j - i)%nat) kept
  = omap (λ j, rest !! (j - S i)%nat) kept.
Proof.
  induction 1 as [|j kept Hj _ IH]; [done|]. cbn [omap list_omap].
  replace (j - i)%nat with (S (j - S i)) by lia. cbn [lookup list_lookup].
  by rewrite IH.
Qed.

Lemma keep_others_exact s decos :
  ∀ i kept, keep_others (Some s) i decos = Ok kept →
    Forall (λ j, i ≤ j)%nat kept ∧
    omap (λ j, decos !! (j - i)%nat) kept
    = filter (λ deco, keeps s deco = true) decos.
Proof.
  induction decos as [|deco rest IH]; intros i kept Hk.
  - injection Hk as <-. done.
  - cbn [keep_others] in Hk.
    match type of Hk with
    | (mbind _ ?m) = _ => destruct m as [keep|e] eqn:Hkeep
    end; cbn [mbind outcome_bind] in Hk; [|done].
    apply keep_test in Hkeep.
    destruct (keep_others (Some s) (S i) rest) as [kept'|e] eqn:Hrest;
      cbn [mbind outcome_bind] in Hk; [|done].
    injection Hk as <-.
    destruct (IH _ _ Hrest) as [Hle Hres].
    assert (Forall (λ j, i ≤ j)%nat kept') as Hle'.
    { eapply Forall_impl; [exact Hle|]. intros j Hj. simpl in Hj. lia. }
    rewrite filter_cons. subst keep. destruct (keeps s deco) eqn:Hd.
    + rewrite decide_True by done. split; [by constructor|].
      cbn [omap list_omap]. rewrite Nat.sub_diag. cbn [lookup list_lookup].
      by rewrite omap_shift, Hres.
    + rewrite decide_False by done. split; [done|].
      by rewrite omap_shift, Hres.
Qed.



(** ** Decorators the loops cannot handle *)

Lemma Freeze_after_capture h callers fnc eg ow ig depth astMod astTgt sc e :
  is_function_or_type fnc = true →
  capture_block h fnc eg depth callers = Ok (astMod, astTgt, sc) →
  strip_block sc astTgt = Raise e →
  Freeze h callers (Target fnc) eg ow ig depth
  = Run [announce (qualname fnc)] None (Raise e).
Proof.
  intros Hfnc Hcap Hstrip. unfold Freeze. by rewrite Hfnc, Hcap, Hstrip.
Qed.



Lemma keep_others_unbound_self sc decos :
  find_self sc decos = Ok None →
  (∃ deco, deco ∈ decos ∧ is_name_or_call deco = true) →
  ∀ i, keep_others None i decos = raise UnboundLocalError "_self".
Proof.
  induction decos as [|deco rest IH]; intros Hfind [d [Hd Hnc]] i.
  - by apply elem_of_nil in Hd.
  - cbn [find_self] in Hfind. cbn [keep_others].
    destruct deco as [[id ctx| | |cls fields]|a]; try done.
    + rewrite IH; [done|done|]. exists d. split; [|done].
      apply elem_of_cons in Hd as [->|Hd]; [done|done].
    + rewrite IH; [done|done|]. exists d. split; [|done].
      apply elem_of_cons in Hd as [->|Hd]; [done|done].
    + destruct (String.eqb cls "Call") eqn:Hcls.
      * destruct (getattr _ "func") as [func|e]; cbn [mbind outcome_bind] in *;
          [|done].
        by destruct (node_id func) as [id|e]; cbn [mbind outcome_bind] in *.
      * cbn [mbind outcome_bind]. rewrite IH; [done|done|].
        exists d. split; [|done].
        apply elem_of_cons in Hd as [->|Hd]; [|done].
        cbn [is_name_or_call] in Hnc. by rewrite Hcls in Hnc.
    + rewrite IH; [done|done|]. exists d. split; [|done].
      apply elem_of_cons in Hd as [->|Hd]; [done|done].
Qed.

(** X13.  When the first loop runs to its end, without an error and
    without finding a decorator bound to [Freeze] (a function decorated
    with something else that is bound in the scope, and frozen by a later
    call): as soon as the list holds a bare name or a call, the second loop
    reads the local [_self] that was never bound, and the block raises
    [UnboundLocalError].  With an empty decorator list the block succeeds
    and keeps nothing. *)
Theorem no_Freeze_decorator_raises_UnboundLocalError (sc : scope)
    (astTgt : node) (decos : list (item node)) :
  decorators_of astTgt = Ok decos →
  find_self sc decos = Ok None →
  (decos = [] → strip_block sc astTgt = Ok (Stripped true (INode astTgt) [])) ∧
  ((∃ deco, deco ∈ decos ∧ is_name_or_call deco = true) →
   strip_block sc astTgt = raise UnboundLocalError "_self").
Proof.
  intros Hdecos Hfind. unfold strip_block, strip_try. rewrite Hdecos.
  cbn [mbind outcome_bind]. rewrite Hfind. cbn [mbind outcome_bind].
  split.
  - by intros ->.
  - intros Hex. by rewrite (keep_others_unbound_self sc).
Qed.

Lemma no_Freeze_decorator_raises_UnboundLocalError_witness :
  strip_block traced_globals (power_def (Name "N" Load) [Name "trace" Load])
  = raise UnboundLocalError "_self".
Proof.
  apply (no_Freeze_decorator_raises_UnboundLocalError traced_globals
           (power_def (Name "N" Load) [Name "trace" Load])
           [INode (Name "trace" Load)]); [reflexivity | reflexivity |].
  exists (INode (Name "trace" Load)). split; [apply list_elem_of_here | reflexivity].
Defined.



(** ** Source retrieval, seen from its result *)

(** X15.  When lines 63-96 succeed, the tree handed on is the parse of the
    raw source, never the parse of the cleaned text, the target is its
    first statement, the cleaned text parsed or failed with an
    [IndentationError] only, and the scope is the one captured from the
    frame of the caller ([depth] zero) or of the caller's caller. *)
Theorem capture_block_result (h : Host) (fnc : pyobj) (enforce_globals : bool)
    (depth : Z) (callers : list frame) (astMod : list node) (astTgt : node)
    (sc : scope) :
  capture_block h fnc enforce_globals depth callers = Ok (astMod, astTgt, sc) →
  ∃ src fr,
    getsource h fnc = Ok src ∧
    parse h src = Ok astMod ∧
    head astMod = Some astTgt ∧
    (∀ e, parse h (cleandoc h src) = Raise e → is_IndentationError e = true) ∧
    callers !! (if Z.eqb depth 0 then 0 else 1)%nat = Some fr ∧
    sc = capture_scope enforce_globals fr.
Proof.
  unfold capture_block, try_suite.
  destruct (getsource h fnc) as [src|e]; [|done].
  destruct (parse_source h src) as [[astMod' astTgt']|e] eqn:Hparse; [|done].
  destruct (select_frame depth callers) as [[fr|]|e] eqn:Hframe;
    [|by destruct enforce_globals|done].
  intros [= -> -> <-]. exists src, fr. split; [done|].
  unfold parse_source in Hparse.
  destruct (parse h src) as [tree|e]; cbn [mbind outcome_bind] in Hparse; [|done].
  destruct tree as [|stmt rest]; cbn [mbind outcome_bind] in Hparse; [done|].
  assert (stmt :: rest = astMod ∧ stmt = astTgt ∧
          ∀ e, parse h (cleandoc h src) = Raise e → is_IndentationError e = true)
    as (<- & <- & Hclean).
  { destruct (parse h (cleandoc h src)) as [t|x] eqn:Hc.
    - injection Hparse as <- <-. done.
    - destruct (is_IndentationError x) eqn:Hx; [|done].
      injection Hparse as <- <-. repeat split. by intros e [= <-]. }
  repeat split; [done|].
  unfold select_frame in Hframe. destruct (Z.eqb depth 0).
  - by injection Hframe.
  - destruct callers as [|c outer]; [done|]. by injection Hframe.
Qed.

Lemma capture_block_result_witness :
  ∃ src fr,
    getsource (simple_host power_src [power_def (Name "N" Load) [Name "Freeze" Load]])
      (ObjFunction power_fnc) = Ok src ∧
    parse (simple_host power_src [power_def (Name "N" Load) [Name "Freeze" Load]])
      src = Ok [power_def (Name "N" Load) [Name "Freeze" Load]] ∧
    head [power_def (Name "N" Load) [Name "Freeze" Load]]
    = Some (power_def (Name "N" Load) [Name "Freeze" Load]) ∧
    (∀ e, parse (simple_host power_src
                   [power_def (Name "N" Load) [Name "Freeze" Load]])
            (cleandoc (simple_host power_src
                         [power_def (Name "N" Load) [Name "Freeze" Load]]) src)
          = Raise e → is_IndentationError e = true) ∧
    [module_frame power_globals] !! (if Z.eqb 0 0 then 0 else 1)%nat = Some fr ∧
    capture_scope false (module_frame power_globals) = capture_scope false fr.
Proof.
  apply (capture_block_result
           (simple_host power_src [power_def (Name "N" Load) [Name "Freeze" Load]])
           (ObjFunction power_fnc) false 0 [module_frame power_globals]).
  reflexivity.
Defined.

(** ** Where a [FreezeError] can come from *)

Lemma bind_Raise {A B} (m : outcome A) (k : A → outcome B) e :
  (a ← m; k a) = Raise e → m = Raise e ∨ ∃ a, m = Ok a ∧ k a = Raise e.
Proof. destruct m as [a|e']; [right; eauto|]. intros [= <-]. by left. Qed.

Lemma getattr_not_FreezeError n name e :
  getattr n name = Raise e → is_FreezeError e = false.
Proof. unfold getattr. destruct (assoc _ _); [done|]. by intros [= <-]. Qed.

Lemma node_id_not_FreezeError f e :
  node_id f = Raise e → is_FreezeError e = false.
Proof. destruct f as [[]| |]; try done; by intros [= <-]. Qed.

Lemma dict_getitem_not_FreezeError (sc : scope) k e :
  dict_getitem sc k = Raise e → is_FreezeError e = false.
Proof. unfold dict_getitem. destruct (sc !! k); [done|]. by intros [= <-]. Qed.

Lemma find_self_not_FreezeError sc decos e :
  find_self sc decos = Raise e → is_FreezeError e = false.
Proof.
  induction decos as [|deco rest IH]; [done|]. cbn [find_self].
  destruct deco as [[id ctx| | |cls fields]|a]; try done.
  - intros [H|(v & _ & H)]%bind_Raise.
    + by eapply dict_getitem_not_FreezeError.
    + destruct (is_Freeze v); [done|auto].
  - destruct (String.eqb cls "Call"); [|done].
    intros [H|(func & _ & [H|(id & _ & [H|(v & _ & H)]%bind_Raise)]%bind_Raise)]%bind_Raise.
    + by eapply getattr_not_FreezeError.
    + by eapply node_id_not_FreezeError.
    + by eapply dict_getitem_not_FreezeError.
    + destruct (is_Freeze v); [done|auto].
Qed.

Lemma keep_others_not_FreezeError _self decos :
  ∀ i e, keep_others _self i decos = Raise e → is_FreezeError e = false.
Proof.
  induction decos as [|deco rest IH]; intros i e; [done|]. cbn [keep_others].
  intros [H|(keep & _ & [H|(l & _ & H)]%bind_Raise)]%bind_Raise; [|by eauto|done].
  destruct deco as [[id ctx| | |cls fields]|a]; try done.
  - destruct _self; [done|]. by injection H as <-.
  - destruct (String.eqb cls "Call"); [|done].
    apply bind_Raise in H as [H|(func & _ & [H|(id & _ & H)]%bind_Raise)].
    + by eapply getattr_not_FreezeError.
    + by eapply node_id_not_FreezeError.
    + destruct _self; [done|]. by injection H as <-.
Qed.

Lemma strip_block_not_FreezeError sc astTgt e :
  strip_block sc astTgt = Raise e → is_FreezeError e = false.
Proof.
  unfold strip_block.
  destruct (strip_try sc astTgt) as [l|e'] eqn:Htry; [done|].
  assert (is_FreezeError e' = false) as He'.
  { unfold strip_try, decorators_of in Htry.
    apply bind_Raise in Htry as [[H|(f & _ & H)]%bind_Raise|(decos & _ & H)].
    - by eapply getattr_not_FreezeError.
    - destruct f; try done; by injection H as <-.
    - apply bind_Raise in H as [H|(s & _ & H)].
      + by eapply find_self_not_FreezeError.
      + by eapply keep_others_not_FreezeError. }
  destruct (is_AttributeError e'); [|by intros [= <-]].
  destruct (String.eqb _ "Assign"); [|by intros [= <-]].
  intros [H|(a & _ & H)]%bind_Raise; [|done].
  unfold first_argument in H.
  apply bind_Raise in H as [H|(value & _ & [H|(args & _ & H)]%bind_Raise)].
  - by eapply getattr_not_FreezeError.
  - destruct value as [v| |]; [by eapply getattr_not_FreezeError| |];
      by injection H as <-.
  - destruct args as [|[]|]; try done; by injection H as <-.
Qed.

Lemma rebuild_not_FreezeError astMod astTgt s sc e :
  rebuild astMod astTgt s sc = Raise e → is_FreezeError e = false.
Proof.
  unfold rebuild. intros [H|(t & _ & H)]%bind_Raise.
  - destruct (target s); [done|]. by injection H as <-.
  - destruct (visit t sc) as [[n|] sc']; cbn [mbind outcome_bind] in H.
    + by destruct (isNotAssign s).
    + by injection H as <-.
Qed.

Section host_errors.
Variable h : Host.
Hypothesis Hhost : raises_no_FreezeError h.

Lemma exec_stmt_not_FreezeError ns locals stmt e :
  exec_stmt h ns locals stmt = Raise e → is_FreezeError e = false.
Proof.
  destruct Hhost as (_ & Heval & Hexec).
  unfold exec_stmt. repeat case_match; try (by apply Hexec);
    intros [Hr|(u & _ & Hr)]%bind_Raise; try done; by eapply Heval.
Qed.

Lemma exec_body_not_FreezeError ns own body :
  ∀ bound e, exec_body h ns own body bound = Raise e → is_FreezeError e = false.
Proof.
  induction body as [|stmt rest IH]; intros bound e; [done|].
  cbn [exec_body]. intros [H|(bs & _ & H)]%bind_Raise.
  - by eapply exec_stmt_not_FreezeError.
  - by eapply IH.
Qed.

Lemma locals_getitem_not_FreezeError (own bound : gmap string pyobj) name e :
  locals_getitem own bound name = Raise e → is_FreezeError e = false.
Proof.
  unfold locals_getitem. destruct (bool_decide _).
  - destruct (own !! name); [done|]. by intros [= <-].
  - destruct (bound !! name); [done|]. by intros [= <-].
Qed.

Lemma get_code_not_FreezeError o e :
  get_code h o = Raise e → is_FreezeError e = false.
Proof.
  destruct o as [f|c|v|d]; cbn [get_code]; [done| | |].
  - destruct (cls_code c); [done|]. by intros [= <-].
  - destruct v; try (by intros [= <-]).
    destruct (code_at h addr); [done|]. by intros [= <-].
  - by intros [= <-].
Qed.

Lemma set_code_not_FreezeError o co e :
  set_code o co = Raise e → is_FreezeError e = false.
Proof.
  destruct o as [f|c|v|d]; cbn [set_code]; [|done| |]; try (by intros [= <-]).
  destruct (Nat.eqb _ _); [done|]. by intros [= <-].
Qed.

Lemma resynthesize_not_FreezeError own fnc s newFnc astMod e :
  resynthesize h own fnc s newFnc astMod = Raise e → is_FreezeError e = false.
Proof.
  unfold resynthesize, exec_module.
  intros [[H|(u & _ & H)]%bind_Raise|(bound & _ & H)]%bind_Raise.
  - destruct Hhost as (Hc & _). by eapply Hc.
  - by eapply exec_body_not_FreezeError.
  - destruct (isNotAssign s).
    + apply bind_Raise in H as [[H|(f & _ & H)]%bind_Raise|(name & _ & H)].
      * by eapply getattr_not_FreezeError.
      * destruct f as [| |[]]; try done; by injection H as <-.
      * apply bind_Raise in H as [H|(new & _ & [H|(co & _ & H)]%bind_Raise)].
        -- by eapply locals_getitem_not_FreezeError.
        -- by eapply get_code_not_FreezeError.
        -- by eapply set_code_not_FreezeError.
    + apply bind_Raise in H as [H|(stmt & _ & [H|(id & _ & H)]%bind_Raise)].
      * destruct astMod; [|done]. by injection H as <-.
      * unfold first_target_id in H.
        apply bind_Raise in H as [H|(targets & _ & H)].
        -- by eapply getattr_not_FreezeError.
        -- destruct targets as [|[|[n|a] l]|]; try (by injection H as <-);
             unfold item_id in H; by eapply node_id_not_FreezeError.
      * by eapply locals_getitem_not_FreezeError.
Qed.
End host_errors.



(** ** Complete runs *)

Lemma assoc_set_assoc {A} name (f : A) fields :
  assoc name (set_assoc name f fields) = Some f.
Proof.
  induction fields as [|[k g] rest IH]; cbn [set_assoc assoc].
  - by rewrite String.eqb_refl.
  - destruct (String.eqb k name) eqn:Hk; cbn [assoc]; by rewrite Hk.
Qed.

Lemma assoc_set_assoc_ne {A} name other (f : A) fields :
  name ≠ other → assoc other (set_assoc name f fields) = assoc other fields.
Proof.
  intros Hne. induction fields as [|[k g] rest IH]; cbn [set_assoc assoc].
  - apply String.eqb_neq in Hne. by rewrite Hne.
  - destruct (String.eqb k name) eqn:Hk; cbn [assoc]; [|by rewrite IH].
    apply String.eqb_eq in Hk as ->. apply String.eqb_neq in Hne.
    by rewrite Hne.
Qed.





(** X19.  For a function whose source is a definition (the statement has
    a decorator list), what [Freeze] returns, when it returns, is the
    function it was given: same address, same qualified name and same
    globals, so that the names its code still reads are looked up in the
    namespace the function was defined in.  Only its code is replaced, by
    a code object with as many free variables. *)
Theorem definition_keeps_its_globals (h : Host) (callers : list frame)
    (f : function_obj) (enforce_globals : bool) (overwrite_with : scope)
    (ignore : list string) (depth : Z) (astMod : list node) (astTgt : node)
    (sc : scope) (s : stripped) (o : pyobj) :
  capture_block h (ObjFunction f) enforce_globals depth callers
  = Ok (astMod, astTgt, sc) →
  strip_block sc astTgt = Ok s →
  isNotAssign s = true →
  returned (Freeze h callers (Target (ObjFunction f)) enforce_globals
              overwrite_with ignore depth) = Ok (Frozen o) →
  ∃ co,
    co_freevars co = co_freevars (fn_code f) ∧
    o = ObjFunction (Function (fn_addr f) (fn_qualname f) co (fn_globals f)).
Proof.
  intros Hcap Hstrip Hs. unfold Freeze. cbn [is_function_or_type negb].
  rewrite Hcap, Hstrip.
  destruct (filter_scope ignore sc) as [sc1|e] eqn:Hfilter;
    cbn [returned]; [|done].
  destruct (rebuild astMod astTgt s sc1) as [[[newFnc astMod'] sc2]|e]
    eqn:Hrebuild; cbn [mbind outcome_bind]; [|done].
  destruct (resynthesize h _ (ObjFunction f) s newFnc astMod') as [o'|e] eqn:Hre;
    cbn [mbind outcome_bind]; [|done].
  intros [= <-].
  destruct (resynthesize_definition _ _ _ _ _ _ _ Hs Hre)
    as (bound & name & new & co & _ & _ & _ & _ & Hfree & Ho).
  by exists co.
Qed.

Lemma definition_keeps_its_globals_witness :
  ∃ co,
    co_freevars co = co_freevars (fn_code power_fnc) ∧
    ObjFunction
      (Function 7 "power" (Compiled (power_def (Constant (VInt 3) ANone) []))
         (ModuleGlobals "__main__"))
    = ObjFunction
        (Function (fn_addr power_fnc) (fn_qualname power_fnc) co
           (fn_globals power_fnc)).
Proof.
  apply (definition_keeps_its_globals
           (simple_host power_src [power_def (Name "N" Load) [Name "Freeze" Load]])
           [module_frame power_globals] power_fnc false ∅ [] 0
           [power_def (Name "N" Load) [Name "Freeze" Load]]
           (power_def (Name "N" Load) [Name "Freeze" Load])
           (capture_scope false (module_frame power_globals))
           (Stripped true
              (INode (power_def (Name "N" Load) [Name "Freeze" Load])) []));
    reflexivity.
Defined.

(** X20.  The rebuilt module is executed with the local variables of
    [Freeze] as its local names, and the name of the definition is read
    back from [locals()], where a local variable of [Freeze] stands over
    what the module bound.  [@Freeze def fnc(x): return x ** N] gets its
    own code back and is returned as it was, [N] not inlined; for
    [def scope] the object read back is the dictionary [scope] and the
    call raises [AttributeError]; for [def frame], a variable deleted at
    line 96, it raises [KeyError]; [depth = Freeze(lambda ...)] returns
    the value of the parameter [depth].  And a function that closes over a
    variable, such as the wrapper a decorator written with
    [functools.wraps] returns, refuses the code of the new definition,
    which has no free variable: the call raises [ValueError]. *)
Theorem local_variable_is_read_back :
  returned (Freeze (simple_host (named_src "fnc") [named_def "fnc" (Name "N" Load)])
              [module_frame power_globals]
              (Target (ObjFunction (named_fnc "fnc"))) false ∅ [] 0)
  = Ok (Frozen (ObjFunction (named_fnc "fnc"))) ∧
  returned (Freeze (simple_host (named_src "scope")
                      [named_def "scope" (Name "N" Load)])
              [module_frame power_globals]
              (Target (ObjFunction (named_fnc "scope"))) false ∅ [] 0)
  = raise AttributeError "'dict' object has no attribute '__code__'" ∧
  returned (Freeze (simple_host (named_src "frame")
                      [named_def "frame" (Name "N" Load)])
              [module_frame power_globals]
              (Target (ObjFunction (named_fnc "frame"))) false ∅ [] 0)
  = raise KeyError "frame" ∧
  returned (Freeze (simple_host (option_src "depth") [option_stmt "depth"])
              [module_frame option_globals] (Target (ObjFunction wrapped_fnc))
              false ∅ [] 0)
  = Ok (Frozen (ObjOther (VInt 0))) ∧
  returned (Freeze (simple_host plain_src [power_def (Name "N" Load) []])
              [module_frame power_globals] (Target (ObjFunction wrapper_fnc))
              false ∅ [] 0)
  = raise ValueError "requires a code object with as many free vars".
Proof. repeat split; by vm_compute. Qed.
